(** * scraper.py: crawling procurement disclosures into a flat CSV table

    A shallow embedding of [scraper.py].  Python values are modelled as
    follows.

    - A [str] is a [string]; the characters are the code points below 256.
    - A value that is [None] or a [str] is an [option string].
    - An [xml.etree.ElementTree.Element] is an [element]: tag, text (which
      is [None] for an element without character data) and children.  The
      attributes and the tail are never read by the program.
    - The files written by the program, the calls to [requests.get], the
      calls to [time.sleep] and the records handed to [logging] make the
      [state] threaded through every effectful function.
    - The network and the XML parser are the [world]: what the n-th call to
      [requests.get] answers, what the retry decorator reads on its clock
      after that call, and what [ET.fromstring] makes of a text.
    - A Python exception is an [exn]; functions that may raise, loop or
      touch the state live in the monad [M]. *)

From stdpp Require Import base option list strings gmap.
From Stdlib Require Import ZArith Ascii String Lia.

Set Warnings "-register-all".

Local Open Scope string_scope.
Local Open Scope list_scope.
Local Open Scope Z_scope.

(** ** ElementTree *)

Inductive element : Type :=
  Element (tag : string) (text : option string) (children : list element).

Definition tag (e : element) : string :=
  match e with Element t _ _ => t end.

Definition text (e : element) : option string :=
  match e with Element _ x _ => x end.

Definition children (e : element) : list element :=
  match e with Element _ _ cs => cs end.

(** [Element.iter()]: the element and everything below it, in document
    order. *)
Fixpoint iter (e : element) : list element :=
  match e with
  | Element _ _ cs => e :: flat_map iter cs
  end.

(** The steps of the ElementPath expressions that occur in the program:
    [.] is [Self], [name] is [Child name] and [//name] is
    [Descendant name]. *)
Inductive step : Type :=
| Self
| Child (name : string)
| Descendant (name : string).

Definition has_tag (name : string) (e : element) : bool :=
  bool_decide (tag e = name).

Definition select (s : step) (context : list element) : list element :=
  match s with
  | Self => context
  | Child name =>
      flat_map (fun e => List.filter (has_tag name) (children e)) context
  | Descendant name =>
      flat_map (fun e => List.filter (has_tag name) (flat_map iter (children e)))
               context
  end.

Definition findall (path : list step) (e : element) : list element :=
  fold_left (fun context s => select s context) path [e].

Definition find (path : list step) (e : element) : option element :=
  head (findall path e).

(** ** Exceptions, state and the monad of effects *)

Inductive exn : Type :=
| ParseError
| AttributeError
| NameError
| MissingSchema
| ConnectionError
| Timeout
| HTTPError.

Inductive cell : Type :=
| CNone
| CStr (s : string)
| CInt (z : Z).

Inductive event : Type :=
| Request (url : option string)
| Sleep (ms : Z).

Inductive level : Type := INFO | ERROR.

Inductive message : Type :=
| Fetched (xml_link : option string)
| ErrorAccessing (xml_link : option string)
| UnknownStructure (xml_link : option string)
| Processed (xml_link : option string)
| ErrorProcessing (xml_link : option string)
| ErrorParsingLotto
| ErrorParsingCollection
| Processing (url : string)
| ErrorComunicazione (i : nat).

Record state : Type := State {
  trace : list event;
  files : gmap string (list (list cell));
  log : list (level * message)
}.

Inductive outcome (A : Type) : Type :=
| Return (a : A)
| Raise (e : exn).

Arguments Return {A} a.
Arguments Raise {A} e.

(** [None] stands for a run that does not come back within the fuel given
    to the recursion. *)
Definition M (A : Type) : Type := state -> option (outcome A * state).

Definition ret {A} (a : A) : M A := fun s => Some (Return a, s).

Definition raise {A} (e : exn) : M A := fun s => Some (Raise e, s).

Definition diverge {A} : M A := fun _ => None.

Definition bind {A B} (m : M A) (k : A -> M B) : M B :=
  fun s =>
    match m s with
    | None => None
    | Some (Return a, s') => k a s'
    | Some (Raise e, s') => Some (Raise e, s')
    end.

Definition try_except {A} (m : M A) (handler : exn -> M A) : M A :=
  fun s =>
    match m s with
    | None => None
    | Some (Return a, s') => Some (Return a, s')
    | Some (Raise e, s') => handler e s'
    end.

Declare Scope py_scope.
Delimit Scope py_scope with py.
Notation "x <- m ;; k" := (bind m (fun x => k))
  (at level 100, m at next level, right associativity) : py_scope.
Notation "m ;;; k" := (bind m (fun _ => k))
  (at level 100, right associativity) : py_scope.
Local Open Scope py_scope.

Fixpoint for_each {A} (l : list A) (body : A -> M unit) : M unit :=
  match l with
  | [] => ret tt
  | x :: l' => body x ;;; for_each l' body
  end.

Definition record_event (ev : event) : M unit :=
  fun s => Some (Return tt, State (trace s ++ [ev]) (files s) (log s)).

Definition logging (lv : level) (msg : message) : M unit :=
  fun s => Some (Return tt, State (trace s) (files s) (log s ++ [(lv, msg)])).

(** [open(csv_filename, "a")] creates the file when it does not exist. *)
Definition open_append (csv_filename : string) : M unit :=
  fun s => Some (Return tt,
    State (trace s) (<[csv_filename := files s !!! csv_filename]> (files s))
          (log s)).

Definition writerow (csv_filename : string) (row : list cell) : M unit :=
  fun s => Some (Return tt,
    State (trace s)
          (<[csv_filename := (files s !!! csv_filename) ++ [row]]> (files s))
          (log s)).

Definition cell_of (x : option string) : cell :=
  match x with
  | None => CNone
  | Some s => CStr s
  end.

(** ** Strings *)

(** [str.isspace] on the code points below 256. *)
Definition isspace (c : ascii) : bool :=
  let n := nat_of_ascii c in
  ((9 <=? n) && (n <=? 13) || (28 <=? n) && (n <=? 32)
   || (n =? 133) || (n =? 160))%nat.

(** [\d] on the code points below 256. *)
Definition isdigit (c : ascii) : bool :=
  let n := nat_of_ascii c in ((48 <=? n) && (n <=? 57))%nat.

Fixpoint lstrip (s : string) : string :=
  match s with
  | EmptyString => EmptyString
  | String c s' => if isspace c then lstrip s' else s
  end.

Fixpoint rstrip (s : string) : string :=
  match s with
  | EmptyString => EmptyString
  | String c s' =>
      match rstrip s' with
      | EmptyString => if isspace c then EmptyString else String c EmptyString
      | r => String c r
      end
  end.

Definition strip (s : string) : string := rstrip (lstrip s).

Definition startswith (s p : string) : bool := String.prefix p s.

(** [re.match(r"l190-(\d{4})\.xml", s)]: the group when the pattern matches
    at the start of [s]. *)
Definition match_year (s : string) : option string :=
  if String.prefix "l190-" s then
    match String.substring 5 (String.length s - 5) s with
    | String a (String b (String c (String d rest))) =>
        if isdigit a && isdigit b && isdigit c && isdigit d
           && String.prefix ".xml" rest
        then Some (String a (String b (String c (String d EmptyString))))
        else None
    | _ => None
    end
  else None.

(** [re.search(r"l190-(\d{4})\.xml", s)] followed by [group(1)]: the
    leftmost match. *)
Fixpoint re_search_year (s : string) : option string :=
  match match_year s with
  | Some year => Some year
  | None =>
      match s with
      | EmptyString => None
      | String _ s' => re_search_year s'
      end
  end.

(** ** The attribute vocabulary and [get_attribute_value] *)

Definition ATTRIBUTE_VOCABULARY : gmap string (list string) :=
  {[ "codiceFiscale" := ["codiceFiscale"; "identificativoFiscaleEstero"] ]}.

Definition variants (attribute_name : string) : list string :=
  default [attribute_name] (ATTRIBUTE_VOCABULARY !! attribute_name).

Fixpoint first_variant (element : element) (vs : list string) : option string :=
  match vs with
  | [] => None
  | variant :: vs' =>
      match find [Child variant] element with
      | Some attribute_element => text attribute_element
      | None => first_variant element vs'
      end
  end.

Definition get_attribute_value (element : element) (attribute_name : string)
  : option string :=
  first_variant element (variants attribute_name).

(** ** [update_csv] *)

(** One entry of the list built by [parse_lotto_xml]:
    [(ente, cf_ente, cig, partecipanti, aggiudicatari)]. *)
Definition lot : Type :=
  option string * option string * option string
  * list (option string) * list (option string).

Definition update_csv (csv_filename : string) (data : list lot) : M unit :=
  open_append csv_filename ;;;
  for_each data (fun row =>
    let '(ente, cf_ente, cig, partecipanti, aggiudicatari) := row in
    let partecipanti :=
      if (0 <? List.length aggiudicatari)%nat && (List.length partecipanti =? 0)%nat
      then aggiudicatari
      else partecipanti in
    for_each partecipanti (fun partecipante =>
      let winner := if bool_decide (partecipante ∈ aggiudicatari) then 1 else 0 in
      writerow csv_filename
        [cell_of ente; cell_of cf_ente; cell_of cig; cell_of partecipante;
         CInt winner])).

Definition update_status_csv (csv_filename : string) (row : list cell) : M unit :=
  open_append csv_filename ;;;
  writerow csv_filename row.

(** ** The world outside the program *)

Inductive http_reply : Type :=
| NoReply (e : exn)
| Reply (status_code : Z) (response_text : string).

(** [requests_get n url] is what the call number [n] (counting from 0) to
    [requests.get] answers when asked for [url]: an exception of the
    transport, or a status code with the decoded text of the body.
    [delay_since_first_attempt_ms n] is what the retry decorator computes
    from its clock once [n] calls have been made, when the last of them has
    raised.  [fromstring] is [ET.fromstring]; [None] is a [ParseError]. *)
Record world : Type := World {
  requests_get : nat -> string -> http_reply;
  delay_since_first_attempt_ms : nat -> Z;
  fromstring : string -> option element
}.

(** The decorator [@retry(...)] of the library [retrying], for the three
    keyword arguments that the program gives.  With a maximal number of
    attempts and a maximal delay both given, the decorator stops retrying as
    soon as one of the two is reached. *)
Record Retrying : Type := {
  stop_max_attempt_number : nat;
  wait_fixed : Z;
  stop_max_delay : Z
}.

Definition stop (r : Retrying) (previous_attempt_number : nat) (delay : Z) : bool :=
  (stop_max_attempt_number r <=? previous_attempt_number)%nat
  || (stop_max_delay r <=? delay).

Definition requests_made (s : state) : nat :=
  List.length (List.filter (fun ev => match ev with Request _ => true | Sleep _ => false end)
                           (trace s)).

Section Crawler.

Variable w : world.

(** The loop of the decorator: call the function; hand back what it
    returns; when it raises, read the clock, stop and raise the same
    exception if the policy says so, otherwise sleep and try again with the
    next attempt number.  The loop is a [while True]; [retry] gives it the
    maximal number of attempts as fuel, which is enough ([total_call]). *)
Fixpoint call {A} (r : Retrying) (fuel : nat) (attempt_number : nat) (fn : M A)
  : M A :=
  match fuel with
  | O => diverge
  | S fuel' =>
      try_except fn (fun e s =>
        if stop r attempt_number (delay_since_first_attempt_ms w (requests_made s))
        then raise e s
        else (record_event (Sleep (wait_fixed r)) ;;;
              call r fuel' (S attempt_number) fn) s)
  end.

Definition retry (r : Retrying) {A} (fn : M A) : M A :=
  call r (stop_max_attempt_number r) 1 fn.

(** [requests.get(url, timeout=5)] followed by [raise_for_status()].  A URL
    that is [None] has no scheme: the call raises before anything is sent. *)
Definition get (url : option string) : M string :=
  fun s =>
    (record_event (Request url) ;;;
     match url with
     | None => raise MissingSchema
     | Some u =>
         match requests_get w (requests_made s) u with
         | NoReply e => raise e
         | Reply status_code response_text =>
             if (400 <=? status_code) && (status_code <? 600)
             then raise HTTPError
             else ret response_text
         end
     end) s.

Definition make_request (xml_link : option string) : M string :=
  retry {| stop_max_attempt_number := 3; wait_fixed := 1000; stop_max_delay := 5000 |}
    (response <- get xml_link ;;
     logging INFO (Fetched xml_link) ;;;
     ret response).

Definition ET_fromstring (xml_content : string) : M element :=
  match fromstring w xml_content with
  | Some root => ret root
  | None => raise ParseError
  end.

(** [x.text] where [x] is the result of a [find]: an [AttributeError] when
    the [find] gave [None]. *)
Definition dot_text (x : option element) : M (option string) :=
  match x with
  | Some e => ret (text e)
  | None => raise AttributeError
  end.

Fixpoint parse_lotto_loop (lotti : list element) (results : list lot)
  : M (list lot) :=
  match lotti with
  | [] => ret results
  | lotto :: lotti' =>
      ente <- dot_text (find [Self; Child "strutturaProponente"; Child "denominazione"] lotto) ;;
      cf_ente <- dot_text (find [Self; Child "strutturaProponente"; Child "codiceFiscaleProp"] lotto) ;;
      cig <- dot_text (find [Self; Child "cig"] lotto) ;;
      let partecipanti :=
        map (fun p => get_attribute_value p "codiceFiscale")
            (findall [Self; Child "partecipanti"; Child "partecipante"] lotto) in
      let aggiudicatari :=
        map (fun a => get_attribute_value a "codiceFiscale")
            (findall [Self; Child "aggiudicatari"; Child "aggiudicatario"] lotto) in
      parse_lotto_loop lotti'
        (results ++ [(ente, cf_ente, cig, partecipanti, aggiudicatari)])
  end.

Definition parse_lotto_xml (xml_content : string) : M (option (list lot)) :=
  try_except
    (root <- ET_fromstring xml_content ;;
     results <- parse_lotto_loop (findall [Self; Descendant "lotto"] root) [] ;;
     ret (Some results))
    (fun e =>
       match e with
       | ParseError => logging ERROR ErrorParsingLotto ;;; ret None
       | _ => raise e
       end).

(** [process_dataset_xml] and [process_xml_link] call each other;
    [process_xml_link] below gives itself, with one unit of fuel less, as
    the argument of that name. *)
Definition process_dataset_xml
    (process_xml_link : option string -> string -> M (option Z))
    (xml_content : string) (csv_filename : string)
    (parent_xml_link : option string) : M (option (list lot)) :=
  try_except
    (root <- ET_fromstring xml_content ;;
     let links := map text (findall [Self; Descendant "linkDataset"] root) in
     for_each links (fun link =>
       if bool_decide (link ≠ parent_xml_link)
       then _ <- process_xml_link link csv_filename ;; ret tt
       else ret tt) ;;;
     ret None)
    (fun e =>
       match e with
       | ParseError => logging ERROR ErrorParsingCollection ;;; ret None
       | _ => raise e
       end).

(** [if parsed_data:] holds for a list that is not empty. *)
Definition truthy (parsed_data : option (list lot)) : bool :=
  match parsed_data with
  | Some (_ :: _) => true
  | _ => false
  end.

Definition finish (xml_link : option string) (csv_filename : string)
    (parsed_data : option (list lot)) : M (option Z) :=
  (if truthy parsed_data
   then update_csv csv_filename (default [] parsed_data) ;;;
        logging INFO (Processed xml_link)
   else ret tt) ;;;
  ret (Some 0).

(** The result is the return code: [Some 0], [Some 1], [Some 2], or [None]
    for the bare [return]. *)
Fixpoint process_xml_link (fuel : nat) (xml_link : option string)
    (csv_filename : string) : M (option Z) :=
  match fuel with
  | O => diverge
  | S fuel' =>
      response <- try_except
        (response <- make_request xml_link ;; ret (Some response))
        (fun e => logging ERROR (ErrorAccessing xml_link) ;;; ret None) ;;
      match response with
      | None => ret (Some 1)
      | Some xml_content =>
          try_except
            (root <- ET_fromstring xml_content ;;
             if bool_decide (find [Self; Descendant "lotto"] root ≠ None)
             then parsed_data <- parse_lotto_xml xml_content ;;
                  finish xml_link csv_filename parsed_data
             else if bool_decide (find [Self; Descendant "dataset"] root ≠ None)
             then parsed_data <- process_dataset_xml (process_xml_link fuel')
                                   xml_content csv_filename xml_link ;;
                  finish xml_link csv_filename parsed_data
             else logging ERROR (UnknownStructure xml_link) ;;; ret None)
            (fun e => logging ERROR (ErrorProcessing xml_link) ;;; ret (Some 2))
      end
  end.

(** ** The driver

    [parse_args] and [logging.basicConfig] are left out, and
    [check_files_existence] is modelled apart, in [Startup]: the arguments
    are given, and [input_root] is the root of the tree that [ET.parse]
    read from [input_filename].  [year] is [None] when
    the name [year] has not been bound. *)

(** [x.text.strip()] where [x] is the result of a [find]. *)
Definition dot_text_strip (x : option element) : M string :=
  match x with
  | Some (Element _ (Some t) _) => ret (strip t)
  | _ => raise AttributeError
  end.

Fixpoint main_loop (fuel : nat) (year : option string)
    (output_filename status_filename : string)
    (i : nat) (comunicazioni : list element) : M unit :=
  match comunicazioni with
  | [] => ret tt
  | comunicazione :: rest =>
      fields <- try_except
        (cf_ente <- dot_text_strip (find [Child "codiceFiscale"] comunicazione) ;;
         name_ente <- dot_text (find [Child "ragioneSociale"] comunicazione) ;;
         let name_ente :=
           match name_ente with Some n => strip n | None => EmptyString end in
         url <- dot_text_strip (find [Child "url"] comunicazione) ;;
         ret (Some (cf_ente, name_ente, url)))
        (fun e => logging ERROR (ErrorComunicazione i) ;;; ret None) ;;
      match fields with
      | None => main_loop fuel year output_filename status_filename (S i) rest
      | Some (cf_ente, name_ente, url) =>
          let url := if startswith url "http" then url else "http://" +:+ url in
          logging INFO (Processing url) ;;;
          return_code <- process_xml_link fuel (Some url) output_filename ;;
          year' <- match year with
                   | Some y => ret y
                   | None => raise NameError
                   end ;;
          update_status_csv status_filename
            [CStr year'; CStr cf_ente; CStr name_ente; CStr url;
             match return_code with Some z => CInt z | None => CNone end] ;;;
          main_loop fuel year output_filename status_filename (S i) rest
      end
  end.

Definition main (fuel : nat)
    (input_filename output_filename status_filename : string)
    (input_root : element) : M unit :=
  let year := re_search_year input_filename in
  main_loop fuel year output_filename status_filename 0
    (findall [Child "comunicazione"] input_root).

End Crawler.

(** ** [update_csv] over a store of list objects

    A Python list is an object: the tuple built by [parse_lotto_xml] holds
    two references, and a method such as [append] would change what every
    holder of the reference sees.  Here the lists live in a store, a lot
    holds references into it, and [list.copy()] allocates. *)
Module ObjectStore.

Definition ref : Type := nat.

Record lot_ref : Type := LotRef {
  ente : option string;
  cf_ente : option string;
  cig : option string;
  partecipanti : ref;
  aggiudicatari : ref
}.

Definition len (h : gmap ref (list (option string))) (l : ref) : nat :=
  List.length (h !!! l).

(** [l.copy()]: a new object with the items of [l]. *)
Definition copy (h : gmap ref (list (option string))) (l : ref)
  : ref * gmap ref (list (option string)) :=
  let l' := fresh (dom h) in (l', <[l' := h !!! l]> h).

(** The [if] statement at the head of the loop body: the reference bound to
    the name [partecipanti] after it, and the store. *)
Definition rebind (h : gmap ref (list (option string))) (row : lot_ref)
  : ref * gmap ref (list (option string)) :=
  if (0 <? len h (aggiudicatari row))%nat && (len h (partecipanti row) =? 0)%nat
  then copy h (aggiudicatari row)
  else (partecipanti row, h).

(** The body of the inner loop does not touch the store, so the iterator
    yields the items the list has when the loop starts. *)
Fixpoint update_csv_loop (csv_filename : string) (data : list lot_ref)
    (h : gmap ref (list (option string)))
  : M (gmap ref (list (option string))) :=
  match data with
  | [] => ret h
  | row :: data' =>
      let '(partecipanti, h1) := rebind h row in
      for_each (h1 !!! partecipanti) (fun partecipante =>
        let winner :=
          if bool_decide (partecipante ∈ h1 !!! aggiudicatari row) then 1 else 0 in
        writerow csv_filename
          [cell_of (ente row); cell_of (cf_ente row); cell_of (cig row);
           cell_of partecipante; CInt winner]) ;;;
      update_csv_loop csv_filename data' h1
  end.

Definition update_csv (csv_filename : string) (data : list lot_ref)
    (h : gmap ref (list (option string)))
  : M (gmap ref (list (option string))) :=
  open_append csv_filename ;;;
  update_csv_loop csv_filename data h.


End ObjectStore.

(** ** Definitions used to state the properties *)

(** The state once [rows] have been appended to the file [csv_filename]. *)
Definition append_rows (csv_filename : string) (rows : list (list cell))
    (s : state) : state :=
  State (trace s)
        (<[csv_filename := (files s !!! csv_filename) ++ rows]> (files s))
        (log s).

(** The rows that one turn of the outer loop of [update_csv] writes. *)
Definition rows_of (row : lot) : list (list cell) :=
  let '(ente, cf_ente, cig, partecipanti, aggiudicatari) := row in
  map (fun partecipante =>
         [cell_of ente; cell_of cf_ente; cell_of cig; cell_of partecipante;
          CInt (if bool_decide (partecipante ∈ aggiudicatari) then 1 else 0)])
      (if (0 <? List.length aggiudicatari)%nat && (List.length partecipanti =? 0)%nat
       then aggiudicatari
       else partecipanti).

(** [m] never raises: whatever it does, it hands back a value (or does not
    come back). *)
Definition no_raise {A} (m : M A) : Prop :=
  forall s e s', m s <> Some (Raise e, s').

(** [s'] comes after [s]: the trace has grown at its end, and so has every
    file. *)
Definition extends (s s' : state) : Prop :=
  trace s `prefix_of` trace s'
  /\ forall f, (files s !!! f) `prefix_of` (files s' !!! f).

(** [m] only adds to the trace and to the files. *)
Definition appends {A} (m : M A) : Prop :=
  forall s r s', m s = Some (r, s') -> extends s s'.

(** [m] writes to no file. *)
Definition keeps_files {A} (m : M A) : Prop :=
  forall s r s', m s = Some (r, s') -> files s' = files s.

(** [m] always comes back. *)
Definition total {A} (m : M A) : Prop :=
  forall s, m s <> None.

(** A lot element that has no [strutturaProponente/denominazione], no
    [strutturaProponente/codiceFiscaleProp] or no [cig]. *)
Definition lacks_mandatory_field (lotto : element) : Prop :=
  find [Self; Child "strutturaProponente"; Child "denominazione"] lotto = None
  \/ find [Self; Child "strutturaProponente"; Child "codiceFiscaleProp"] lotto = None
  \/ find [Self; Child "cig"] lotto = None.

(** [get] raises at the call number [n]: the URL is [None], the transport
    raises, or the status is 4xx or 5xx. *)
Definition refused (w : world) (n : nat) (url : option string) : bool :=
  match url with
  | None => true
  | Some u =>
      match requests_get w n u with
      | NoReply _ => true
      | Reply status_code _ => (400 <=? status_code) && (status_code <? 600)
      end
  end.

(** What the driver reads from one [comunicazione] when the [try] block
    goes through: the tax id, the name, and the URL with its scheme. *)
Definition seed (comunicazione : element) : option (string * string * string) :=
  match find [Child "codiceFiscale"] comunicazione,
        find [Child "ragioneSociale"] comunicazione,
        find [Child "url"] comunicazione with
  | Some (Element _ (Some cf_ente) _), Some name_ente, Some (Element _ (Some url) _) =>
      Some (strip cf_ente,
            match text name_ente with Some n => strip n | None => EmptyString end,
            if startswith (strip url) "http" then strip url
            else "http://" +:+ strip url)
  | _, _, _ => None
  end.

(** ** Examples *)

Definition leaf (name content : string) : element :=
  Element name (Some content) [].

(** A lot with two participants, the second of which is the awardee and is
    identified by the second synonym. *)
Definition lotto_example : element :=
  Element "lotto" None
    [leaf "cig" "Z1";
     Element "strutturaProponente" None
       [leaf "codiceFiscaleProp" "001"; leaf "denominazione" "Comune"];
     Element "partecipanti" None
       [Element "partecipante" None [leaf "codiceFiscale" "A"];
        Element "partecipante" None [leaf "identificativoFiscaleEstero" "B"]];
     Element "aggiudicatari" None
       [Element "aggiudicatario" None [leaf "identificativoFiscaleEstero" "B"]]].

(** A lot without [cig]. *)
Definition lotto_without_cig : element :=
  Element "lotto" None
    [Element "strutturaProponente" None
       [leaf "codiceFiscaleProp" "001"; leaf "denominazione" "Comune"];
     Element "partecipanti" None
       [Element "partecipante" None [leaf "codiceFiscale" "C"]]].

Definition lot_document (lotti : list element) : element :=
  Element "pubblicazione" None
    [Element "metadata" None [leaf "titolo" "Pubblicazione"];
     Element "data" None lotti].

Definition dataset_document (links : list string) : element :=
  Element "pubblicazione" None
    [Element "indice" None
       (map (fun link => Element "dataset" None [leaf "linkDataset" link]) links)].

Definition unknown_document : element :=
  Element "html" None [Element "body" None [leaf "h1" "Not found"]].

Fixpoint page (pages : list (string * element)) (url : string) : option element :=
  match pages with
  | [] => None
  | (u, root) :: pages' => if String.eqb u url then Some root else page pages' url
  end.

(** A world that serves [pages]: the text at a URL is named by the URL, the
    parser maps the name to the tree, any other URL does not answer, and
    the clock of the decorator reads [delay] after each failed attempt. *)
Definition served (pages : list (string * element)) (delay : Z) : world :=
  World (fun _ url =>
           match page pages url with
           | Some _ => Reply 200 url
           | None => NoReply ConnectionError
           end)
        (fun _ => delay)
        (page pages).

Definition start : state := State [] ∅ [].

(** A world where ["http://p"] lists ["http://d"] and ["http://d"] lists
    ["http://p"]; asked again, ["http://p"] answers with a page that is
    neither a list of lots nor a list of links. *)
Definition back_reference : world :=
  World (fun n url =>
           if String.eqb url "http://p"
           then if (n =? 0)%nat then Reply 200 "p" else Reply 200 "moved"
           else if String.eqb url "http://d" then Reply 200 "d"
           else NoReply ConnectionError)
        (fun _ => 0)
        (page [("p", dataset_document ["http://d"]);
               ("d", dataset_document ["http://p"]);
               ("moved", unknown_document)]).

(** A world where two dataset documents list each other, at every
    request. *)
Definition mutual_links : world :=
  served [("http://p", dataset_document ["http://d"]);
          ("http://d", dataset_document ["http://p"])] 0.

(** A world where no request is answered before its timeout of five
    seconds. *)
Definition timing_out : world :=
  World (fun _ _ => NoReply Timeout)
        (fun n => 5000 * Z.of_nat n)
        (fun _ => None).

(** What [make_request] adds to the trace when every attempt is refused and
    the clock reads [d1] after the first attempt and [d2] after the
    second. *)
Definition refused_attempts (xml_link : option string) (d1 d2 : Z) : list event :=
  if 5000 <=? d1 then [Request xml_link]
  else if 5000 <=? d2 then [Request xml_link; Sleep 1000; Request xml_link]
  else [Request xml_link; Sleep 1000; Request xml_link; Sleep 1000;
        Request xml_link].

Definition comunicazione_example (cf_ente url : string) : element :=
  Element "comunicazione" None
    [leaf "codiceFiscale" cf_ente;
     Element "ragioneSociale" None [];
     leaf "url" url].

(** A catalogue of two entries; the first URL does not answer. *)
Definition catalogue : element :=
  Element "legge190" None
    [comunicazione_example " 001 " "down.example/l190.xml";
     comunicazione_example "002" "http://lots"].

Definition lots_and_index : world :=
  served [("http://index", dataset_document ["http://down"; "http://lots"]);
          ("http://lots", lot_document [lotto_example])] 0.

(** ** Definitions for the store of list objects *)






(** ** [check_files_existence]

    The files are those of the [state]: a path exists when the map of
    files has it.  What the operator types at the prompt is given.  The
    result is what the function returns, or the exception that [os.remove]
    raises, together with the files left and with what has been printed
    and asked. *)
Module Startup.

(** The namespace built by [parse_args]. *)
Record Namespace : Type := {
  input_filename : string;
  output_filename : string;
  status_filename : string;
  log_file_path : string
}.

Inductive console : Type :=
| Printed (line : string)
| Asked (prompt : string).

Inductive result : Type :=
| Returned (b : bool)
| FileNotFoundError.

(** [str.lower] on the code points below 256. *)
Definition lower_char (c : ascii) : ascii :=
  let n := nat_of_ascii c in
  if ((65 <=? n) && (n <=? 90) || (192 <=? n) && (n <=? 214)
      || (216 <=? n) && (n <=? 222))%nat
  then ascii_of_nat (n + 32)
  else c.

Fixpoint lower (s : string) : string :=
  match s with
  | EmptyString => EmptyString
  | String c s' => String (lower_char c) (lower s')
  end.

(** [os.path.exists]. *)
Definition exists_ (fs : gmap string (list (list cell))) (file : string) : bool :=
  bool_decide (is_Some (fs !! file)).

(** The loop [for file in existing_files: os.remove(file)]: [false] when
    one of the calls raises because the path is no longer there. *)
Fixpoint remove_each (existing_files : list string)
    (fs : gmap string (list (list cell)))
  : bool * gmap string (list (list cell)) :=
  match existing_files with
  | [] => (true, fs)
  | file :: rest =>
      if exists_ fs file then remove_each rest (delete file fs) else (false, fs)
  end.

Definition check_files_existence (args : Namespace) (typed : string)
    (fs : gmap string (list (list cell)))
  : result * gmap string (list (list cell)) * list console :=
  let file_paths :=
    [output_filename args; status_filename args; log_file_path args] in
  let existing_files := List.filter (exists_ fs) file_paths in
  match existing_files with
  | [] => (Returned true, fs, [])
  | _ :: _ =>
      let shown :=
        Printed "The specified files already exists:"
        :: map (fun file => Printed ("- " +:+ file)) existing_files
        ++ [Asked "Do you want to delete them? [y]/n): "] in
      let user_input := lower typed in
      if String.eqb user_input EmptyString || String.eqb (lower user_input) "y"
      then
        match remove_each existing_files fs with
        | (true, fs') =>
            (Returned true, fs',
             shown ++ [Printed "Existing files removed. Proceeding with the program."])
        | (false, fs') => (FileNotFoundError, fs', shown)
        end
      else (Returned false, fs, shown ++ [Printed "Execution canceled."])
  end.

End Startup.

(** ** More definitions used to state properties *)

(** The tuple that [parse_lotto_xml] appends for a [lotto] that has its
    three mandatory fields. *)
Definition record_of (lotto : element) : lot :=
  (from_option text None
     (find [Self; Child "strutturaProponente"; Child "denominazione"] lotto),
   from_option text None
     (find [Self; Child "strutturaProponente"; Child "codiceFiscaleProp"] lotto),
   from_option text None (find [Self; Child "cig"] lotto),
   map (fun p => get_attribute_value p "codiceFiscale")
       (findall [Self; Child "partecipanti"; Child "partecipante"] lotto),
   map (fun a => get_attribute_value a "codiceFiscale")
       (findall [Self; Child "aggiudicatari"; Child "aggiudicatario"] lotto)).

(** The number of rows that [update_csv] writes for a lot. *)
Definition row_count (row : lot) : nat :=
  let '(_, _, _, partecipanti, aggiudicatari) := row in
  match partecipanti with
  | [] => List.length aggiudicatari
  | _ :: _ => List.length partecipanti
  end.

(** [k] requests for [url] with a sleep of 1000 ms between two of them. *)
Fixpoint attempts (k : nat) (url : option string) : list event :=
  match k with
  | O => []
  | 1%nat => [Request url]
  | S k' => Request url :: Sleep 1000 :: attempts k' url
  end.

(** The first four cells of the row that the driver writes to the status
    file for the fields read from a [comunicazione]. *)
Definition status_cells (year : string) (fields : string * string * string)
  : list cell :=
  let '(cf_ente, name_ente, url) := fields in
  [CStr year; CStr cf_ente; CStr name_ente; CStr url].

Definition all_digits (s : string) : bool :=
  forallb isdigit (list_ascii_of_string s).

(** A string without white space at either end. *)
Definition trimmed (s : string) : Prop :=
  match list_ascii_of_string s with
  | [] => True
  | c :: _ => isspace c = false
  end
  /\ match last (list_ascii_of_string s) with
     | None => True
     | Some c => isspace c = false
     end.

(** [m] changes no file but [csv_filename]. *)
Definition writes_only {A} (csv_filename : string) (m : M A) : Prop :=
  forall s r s' other,
    m s = Some (r, s') -> other <> csv_filename ->
    files s' !! other = files s !! other.

(** ** Definitions for the exception of a refused attempt *)

(** The exception that [get] raises at the call number [n] when the attempt
    is refused: that of a URL without scheme, that of the transport, or that
    of [raise_for_status]. *)
Definition refusal (w : world) (n : nat) (url : option string) : exn :=
  match url with
  | None => MissingSchema
  | Some u =>
      match requests_get w n u with
      | NoReply e => e
      | Reply _ _ => HTTPError
      end
  end.

(** The index, counted from 0, of the attempt after which [make_request]
    gives up when every attempt is refused and the clock of the decorator
    reads [d1] after the first attempt and [d2] after the second. *)
Definition last_attempt (d1 d2 : Z) : nat :=
  if 5000 <=? d1 then 0 else if 5000 <=? d2 then 1 else 2.
(** * Properties *)

(** ** The monad *)

Lemma append_rows_append f r1 r2 s :
  append_rows f r2 (append_rows f r1 s) = append_rows f (r1 ++ r2) s.
Proof.
  unfold append_rows; simpl.
  rewrite lookup_total_insert_eq, insert_insert_eq, <- app_assoc. reflexivity.
Qed.

Lemma open_append_rows f s :
  open_append f s = Some (Return tt, append_rows f [] s).
Proof. unfold open_append, append_rows. rewrite app_nil_r. reflexivity. Qed.

Lemma writerow_rows f row s :
  writerow f row s = Some (Return tt, append_rows f [row] s).
Proof. reflexivity. Qed.

Lemma for_each_rows {A} f (body : A -> M unit) (g : A -> list (list cell)) :
  (forall x r s,
      body x (append_rows f r s) = Some (Return tt, append_rows f (r ++ g x) s)) ->
  forall l r s,
    for_each l body (append_rows f r s)
    = Some (Return tt, append_rows f (r ++ flat_map g l) s).
Proof.
  intros Hbody l. induction l as [|x l IH]; intros r s; simpl.
  - rewrite app_nil_r. reflexivity.
  - unfold bind. rewrite Hbody, IH, <- app_assoc. reflexivity.
Qed.

Lemma flat_map_singleton {A B} (g : A -> B) (l : list A) :
  flat_map (fun x => [g x]) l = map g l.
Proof. induction l as [|x l IH]; simpl; [reflexivity | now rewrite IH]. Qed.

(** ** [update_csv] *)

Lemma update_csv_rows f data s :
  update_csv f data s = Some (Return tt, append_rows f (flat_map rows_of data) s).
Proof.
  unfold update_csv, bind. rewrite open_append_rows.
  apply (for_each_rows f _ rows_of).
  intros [[[[ente cf] cig] ps] ags] r s'.
  rewrite (for_each_rows f _ (fun p => [[cell_of ente; cell_of cf; cell_of cig;
    cell_of p; CInt (if bool_decide (p ∈ ags) then 1 else 0)]])).
  - unfold rows_of. rewrite flat_map_singleton. reflexivity.
  - intros x r' s''. rewrite writerow_rows, append_rows_append. reflexivity.
Qed.

(** ** Rules for [no_raise], [appends], [keeps_files] and [total] *)

Lemma bind_unfold {A B} (m : M A) (k : A -> M B) s :
  bind m k s
  = match m s with
    | None => None
    | Some (Return a, s') => k a s'
    | Some (Raise e, s') => Some (Raise e, s')
    end.
Proof. reflexivity. Qed.

Lemma bind_inv {A B} (m : M A) (k : A -> M B) s r s' :
  bind m k s = Some (r, s') ->
  (exists e, m s = Some (Raise e, s') /\ r = Raise e)
  \/ (exists a s1, m s = Some (Return a, s1) /\ k a s1 = Some (r, s')).
Proof.
  unfold bind. destruct (m s) as [[[a|e] s1]|] eqn:E; intros H.
  - right. eauto.
  - left. inversion H; subst. eauto.
  - discriminate.
Qed.

Lemma try_except_inv {A} (m : M A) (h : exn -> M A) s r s' :
  try_except m h s = Some (r, s') ->
  (exists a, m s = Some (Return a, s') /\ r = Return a)
  \/ (exists e s1, m s = Some (Raise e, s1) /\ h e s1 = Some (r, s')).
Proof.
  unfold try_except. destruct (m s) as [[[a|e] s1]|] eqn:E; intros H.
  - left. inversion H; subst. eauto.
  - right. eauto.
  - discriminate.
Qed.

#[export] Instance extends_preorder : PreOrder extends.
Proof.
  split.
  - intros s. split; [reflexivity | intros f; reflexivity].
  - intros s1 s2 s3 [Ht1 Hf1] [Ht2 Hf2]. split.
    + etransitivity; eassumption.
    + intros f. etransitivity; [apply Hf1 | apply Hf2].
Qed.

Lemma extends_trace s s' ev : extends s s' -> ev ∈ trace s -> ev ∈ trace s'.
Proof. intros [[t Ht] _] Hin. rewrite Ht. set_solver. Qed.

Lemma extends_files s s' f row :
  extends s s' -> row ∈ files s !!! f -> row ∈ files s' !!! f.
Proof. intros [_ Hf] Hin. destruct (Hf f) as [t Ht]. rewrite Ht. set_solver. Qed.

Lemma extends_append_rows f rows s : extends s (append_rows f rows s).
Proof.
  split; [reflexivity|]. intros g. unfold append_rows; simpl.
  destruct (decide (f = g)) as [->|Hne].
  - rewrite lookup_total_insert_eq. now exists rows.
  - rewrite lookup_total_insert_ne by exact Hne. reflexivity.
Qed.

Section Rules.

Context {A B : Type}.

Lemma no_raise_ret (a : A) : no_raise (ret a).
Proof. intros s e s' H. discriminate. Qed.

Lemma no_raise_bind (m : M A) (k : A -> M B) :
  no_raise m -> (forall a, no_raise (k a)) -> no_raise (bind m k).
Proof.
  intros Hm Hk s e s' H. apply bind_inv in H as [(e' & H & _)|(a & s1 & _ & H)].
  - exact (Hm _ _ _ H).
  - exact (Hk _ _ _ _ H).
Qed.

Lemma no_raise_try_except (m : M A) (h : exn -> M A) :
  (forall e, no_raise (h e)) -> no_raise (try_except m h).
Proof.
  intros Hh s e s' H. apply try_except_inv in H as [(a & _ & H)|(e' & s1 & _ & H)].
  - discriminate.
  - exact (Hh _ _ _ _ H).
Qed.

Lemma appends_ret (a : A) : appends (ret a).
Proof. intros s r s' H. inversion H; subst. reflexivity. Qed.

Lemma appends_raise (e : exn) : appends (@raise A e).
Proof. intros s r s' H. inversion H; subst. reflexivity. Qed.

Lemma appends_bind (m : M A) (k : A -> M B) :
  appends m -> (forall a, appends (k a)) -> appends (bind m k).
Proof.
  intros Hm Hk s r s' H. apply bind_inv in H as [(e & H & _)|(a & s1 & H1 & H2)].
  - exact (Hm _ _ _ H).
  - etransitivity; [exact (Hm _ _ _ H1) | exact (Hk _ _ _ _ H2)].
Qed.

Lemma appends_try_except (m : M A) (h : exn -> M A) :
  appends m -> (forall e, appends (h e)) -> appends (try_except m h).
Proof.
  intros Hm Hh s r s' H.
  apply try_except_inv in H as [(a & H & _)|(e & s1 & H1 & H2)].
  - exact (Hm _ _ _ H).
  - etransitivity; [exact (Hm _ _ _ H1) | exact (Hh _ _ _ _ H2)].
Qed.

Lemma keeps_files_ret (a : A) : keeps_files (ret a).
Proof. intros s r s' H. inversion H; subst. reflexivity. Qed.

Lemma keeps_files_raise (e : exn) : keeps_files (@raise A e).
Proof. intros s r s' H. inversion H; subst. reflexivity. Qed.

Lemma keeps_files_bind (m : M A) (k : A -> M B) :
  keeps_files m -> (forall a, keeps_files (k a)) -> keeps_files (bind m k).
Proof.
  intros Hm Hk s r s' H. apply bind_inv in H as [(e & H & _)|(a & s1 & H1 & H2)].
  - exact (Hm _ _ _ H).
  - rewrite (Hk _ _ _ _ H2). exact (Hm _ _ _ H1).
Qed.

Lemma keeps_files_try_except (m : M A) (h : exn -> M A) :
  keeps_files m -> (forall e, keeps_files (h e)) -> keeps_files (try_except m h).
Proof.
  intros Hm Hh s r s' H.
  apply try_except_inv in H as [(a & H & _)|(e & s1 & H1 & H2)].
  - exact (Hm _ _ _ H).
  - rewrite (Hh _ _ _ _ H2). exact (Hm _ _ _ H1).
Qed.

Lemma total_ret (a : A) : total (ret a).
Proof. intros s H. discriminate. Qed.

Lemma total_raise (e : exn) : total (@raise A e).
Proof. intros s H. discriminate. Qed.

Lemma total_bind (m : M A) (k : A -> M B) :
  total m -> (forall a, total (k a)) -> total (bind m k).
Proof.
  intros Hm Hk s. unfold bind. specialize (Hm s).
  destruct (m s) as [[[a|e] s1]|]; [apply Hk | discriminate | contradiction].
Qed.

Lemma total_try_except (m : M A) (h : exn -> M A) :
  total m -> (forall e, total (h e)) -> total (try_except m h).
Proof.
  intros Hm Hh s. unfold try_except. specialize (Hm s).
  destruct (m s) as [[[a|e] s1]|]; [discriminate | apply Hh | contradiction].
Qed.

End Rules.

Lemma no_raise_for_each {A} (l : list A) (body : A -> M unit) :
  (forall x, no_raise (body x)) -> no_raise (for_each l body).
Proof.
  intros Hb. induction l as [|x l IH]; simpl.
  - apply no_raise_ret.
  - apply no_raise_bind; [apply Hb | intros _; exact IH].
Qed.

Lemma appends_for_each {A} (l : list A) (body : A -> M unit) :
  (forall x, appends (body x)) -> appends (for_each l body).
Proof.
  intros Hb. induction l as [|x l IH]; simpl.
  - apply appends_ret.
  - apply appends_bind; [apply Hb | intros _; exact IH].
Qed.

Lemma no_raise_logging lv msg : no_raise (logging lv msg).
Proof. intros s e s' H. discriminate. Qed.

Lemma appends_logging lv msg : appends (logging lv msg).
Proof. intros s r s' H. inversion H; subst. split; [|intros f]; reflexivity. Qed.

Lemma keeps_files_logging lv msg : keeps_files (logging lv msg).
Proof. intros s r s' H. inversion H; subst. reflexivity. Qed.

Lemma total_logging lv msg : total (logging lv msg).
Proof. intros s H. discriminate. Qed.

Lemma appends_record_event ev : appends (record_event ev).
Proof.
  intros s r s' H. inversion H; subst. split; simpl.
  - now exists [ev].
  - intros f. reflexivity.
Qed.

Lemma keeps_files_record_event ev : keeps_files (record_event ev).
Proof. intros s r s' H. inversion H; subst. reflexivity. Qed.

Lemma total_record_event ev : total (record_event ev).
Proof. intros s H. discriminate. Qed.

Lemma appends_update_csv f data : appends (update_csv f data).
Proof.
  intros s r s' H. rewrite update_csv_rows in H. inversion H; subst.
  apply extends_append_rows.
Qed.

Lemma no_raise_update_csv f data : no_raise (update_csv f data).
Proof. intros s e s' H. rewrite update_csv_rows in H. discriminate. Qed.

Create HintDb py discriminated.

#[export] Hint Resolve no_raise_ret no_raise_bind no_raise_try_except
  no_raise_for_each no_raise_logging no_raise_update_csv : py.
#[export] Hint Resolve appends_ret appends_raise appends_bind appends_try_except
  appends_for_each appends_logging appends_record_event appends_update_csv : py.
#[export] Hint Resolve keeps_files_ret keeps_files_raise keeps_files_bind
  keeps_files_try_except keeps_files_logging keeps_files_record_event : py.
#[export] Hint Resolve total_ret total_raise total_bind total_try_except
  total_logging total_record_event : py.

(** ** The fetcher *)

Section Fetcher.

Variable w : world.

Lemma appends_get url : appends (get w url).
Proof.
  intros s r s' H. unfold get in H.
  refine (appends_bind _ _ _ _ s r s' H); [auto with py|].
  intros _. destruct url as [u|]; [|auto with py].
  destruct (requests_get w (requests_made s) u); [auto with py|].
  destruct (_ && _); auto with py.
Qed.

Lemma keeps_files_get url : keeps_files (get w url).
Proof.
  intros s r s' H. unfold get in H.
  refine (keeps_files_bind _ _ _ _ s r s' H); [auto with py|].
  intros _. destruct url as [u|]; [|auto with py].
  destruct (requests_get w (requests_made s) u); [auto with py|].
  destruct (_ && _); auto with py.
Qed.

Lemma total_get url : total (get w url).
Proof.
  intros s. unfold get.
  refine (total_bind _ _ _ _ s); [auto with py|].
  intros _. destruct url as [u|]; [|auto with py].
  destruct (requests_get w (requests_made s) u); [auto with py|].
  destruct (_ && _); auto with py.
Qed.

Lemma appends_call {A} r fuel n (fn : M A) :
  appends fn -> appends (call w r fuel n fn).
Proof.
  intros Hfn. revert n. induction fuel as [|fuel IH]; intros n; simpl.
  - intros s o s' H. discriminate.
  - apply appends_try_except; [exact Hfn|].
    intros e s o s' H. destruct (stop _ _ _).
    + exact (appends_raise e _ _ _ H).
    + refine (appends_bind _ _ _ _ s o s' H); auto with py.
Qed.

Lemma keeps_files_call {A} r fuel n (fn : M A) :
  keeps_files fn -> keeps_files (call w r fuel n fn).
Proof.
  intros Hfn. revert n. induction fuel as [|fuel IH]; intros n; simpl.
  - intros s o s' H. discriminate.
  - apply keeps_files_try_except; [exact Hfn|].
    intros e s o s' H. destruct (stop _ _ _).
    + exact (keeps_files_raise e _ _ _ H).
    + refine (keeps_files_bind _ _ _ _ s o s' H); auto with py.
Qed.

(** The loop of the decorator ends: the fuel it is given, the maximal number
    of attempts, is never used up. *)
Lemma total_call {A} r fuel n (fn : M A) :
  total fn -> (0 < fuel)%nat -> (stop_max_attempt_number r < n + fuel)%nat ->
  total (call w r fuel n fn).
Proof.
  intros Hfn. revert n. induction fuel as [|fuel IH]; intros n Hpos Hn; [lia|].
  simpl. apply total_try_except; [exact Hfn|].
  intros e s. unfold stop.
  destruct (stop_max_attempt_number r <=? n)%nat eqn:Hstop; simpl.
  - discriminate.
  - destruct (stop_max_delay r <=? _); [discriminate|].
    apply Nat.leb_gt in Hstop.
    refine (total_bind _ _ _ _ s); [auto with py|].
    intros _. apply IH; lia.
Qed.

(** What the decorated function ends with comes after a first call of the
    function. *)
Lemma call_first {A} r fuel n (fn : M A) s o s' :
  appends fn ->
  call w r fuel n fn s = Some (o, s') ->
  exists o1 s1, fn s = Some (o1, s1) /\ extends s1 s'.
Proof.
  intros Hfn H. destruct fuel as [|fuel]; [discriminate|].
  change (try_except fn (fun e s =>
            if stop r n (delay_since_first_attempt_ms w (requests_made s))
            then raise e s
            else (record_event (Sleep (wait_fixed r)) ;;;
                  call w r fuel (S n) fn) s) s = Some (o, s')) in H.
  apply try_except_inv in H as [(a & H & _)|(e & s1 & H1 & H2)].
  - exists (Return a), s'. split; [exact H | reflexivity].
  - exists (Raise e), s1. split; [exact H1|].
    destruct (stop _ _ _).
    + inversion H2; subst. reflexivity.
    + refine (appends_bind _ _ _ _ s1 o s' H2); [auto with py|].
      intros _. apply appends_call. exact Hfn.
Qed.

Lemma call_unfold {A} r fuel n (fn : M A) s :
  call w r (S fuel) n fn s
  = match fn s with
    | None => None
    | Some (Return a, s') => Some (Return a, s')
    | Some (Raise e, s') =>
        if stop r n (delay_since_first_attempt_ms w (requests_made s'))
        then Some (Raise e, s')
        else call w r fuel (S n) fn
               (State (trace s' ++ [Sleep (wait_fixed r)]) (files s') (log s'))
    end.
Proof.
  simpl. unfold try_except. destruct (fn s) as [[[a|e] s']|]; try reflexivity.
Qed.

Lemma requests_made_request s url :
  requests_made (State (trace s ++ [Request url]) (files s) (log s))
  = S (requests_made s).
Proof.
  unfold requests_made; simpl. rewrite List.filter_app, List.length_app. simpl. lia.
Qed.

Lemma requests_made_sleep s ms :
  requests_made (State (trace s ++ [Sleep ms]) (files s) (log s))
  = requests_made s.
Proof.
  unfold requests_made; simpl. rewrite List.filter_app, List.length_app. simpl. lia.
Qed.

Lemma requests_made_sleep_request s url ms :
  requests_made
    (State ((trace s ++ [Request url]) ++ [Sleep ms]) (files s) (log s))
  = S (requests_made s).
Proof.
  unfold requests_made; simpl.
  rewrite !List.filter_app, !List.length_app. simpl. lia.
Qed.

(** A refused attempt: the body of [make_request] raises once the request
    is made, and nothing is logged. *)
Lemma attempt_refused xml_link s :
  refused w (requests_made s) xml_link = true ->
  exists e,
    (response <- get w xml_link ;;
     logging INFO (Fetched xml_link) ;;; ret response) s
    = Some (Raise e, State (trace s ++ [Request xml_link]) (files s) (log s)).
Proof.
  unfold refused, bind, get, bind, record_event. simpl.
  destruct xml_link as [u|]; [|intros _; exists MissingSchema; reflexivity].
  destruct (requests_get w (requests_made s) u) as [e|status_code response_text].
  - intros _. exists e. reflexivity.
  - intros ->. exists HTTPError. reflexivity.
Qed.

(** One turn of the loop of the decorator on a refused attempt. *)
Lemma call_refused r fuel n xml_link s :
  refused w (requests_made s) xml_link = true ->
  exists e,
    call w r (S fuel) n
      (response <- get w xml_link ;;
       logging INFO (Fetched xml_link) ;;; ret response) s
    = if stop r n (delay_since_first_attempt_ms w (S (requests_made s)))
      then Some (Raise e,
                 State (trace s ++ [Request xml_link]) (files s) (log s))
      else call w r fuel (S n)
             (response <- get w xml_link ;;
              logging INFO (Fetched xml_link) ;;; ret response)
             (State ((trace s ++ [Request xml_link]) ++ [Sleep (wait_fixed r)])
                    (files s) (log s)).
Proof.
  intros Hrefused. destruct (attempt_refused xml_link s Hrefused) as [e He].
  exists e. rewrite call_unfold, He, requests_made_request. reflexivity.
Qed.

Lemma make_request_unfold xml_link :
  make_request w xml_link
  = call w {| stop_max_attempt_number := 3; wait_fixed := 1000;
              stop_max_delay := 5000 |} 3 1
      (response <- get w xml_link ;;
       logging INFO (Fetched xml_link) ;;; ret response).
Proof. reflexivity. Qed.

Lemma appends_make_request xml_link : appends (make_request w xml_link).
Proof.
  rewrite make_request_unfold. apply appends_call.
  apply appends_bind; [apply appends_get | auto with py].
Qed.

Lemma keeps_files_make_request xml_link : keeps_files (make_request w xml_link).
Proof.
  rewrite make_request_unfold. apply keeps_files_call.
  apply keeps_files_bind; [apply keeps_files_get | auto with py].
Qed.

(** [make_request] always comes back. *)
Lemma total_make_request xml_link : total (make_request w xml_link).
Proof.
  rewrite make_request_unfold. apply total_call; simpl; [|lia|lia].
  apply total_bind; [apply total_get | auto with py].
Qed.

(** Whatever [make_request] ends with, the URL has been asked for. *)
Lemma make_request_requested xml_link s r s' :
  make_request w xml_link s = Some (r, s') ->
  Request xml_link ∈ trace s'.
Proof.
  rewrite make_request_unfold. intros H.
  assert (Hfirst : forall o s1,
    (response <- get w xml_link ;; logging INFO (Fetched xml_link) ;;; ret response) s
    = Some (o, s1) -> Request xml_link ∈ trace s1).
  { intros o s1 H1. apply bind_inv in H1 as [(e & H1 & _)|(a & s2 & H1 & H2)].
    - unfold get in H1. unfold bind at 1 in H1. simpl in H1.
      assert (Hp : extends (State (trace s ++ [Request xml_link]) (files s) (log s))
                           s1).
      { destruct xml_link as [u|].
        - destruct (requests_get w (requests_made s) u).
          + inversion H1; subst. reflexivity.
          + destruct (_ && _); inversion H1; subst; reflexivity.
        - inversion H1; subst. reflexivity. }
      apply (extends_trace _ _ _ Hp). simpl. set_solver.
    - assert (Hin : Request xml_link ∈ trace s2).
      { unfold get in H1. unfold bind at 1 in H1. simpl in H1.
        destruct xml_link as [u|].
        - destruct (requests_get w (requests_made s) u).
          + inversion H1.
          + destruct (_ && _); inversion H1; subst; simpl; set_solver.
        - inversion H1. }
      assert (Hp : appends (logging INFO (Fetched xml_link) ;;; ret a)) by auto with py.
      exact (extends_trace _ _ _ (Hp _ _ _ H2) Hin). }
  apply call_first in H as (o1 & s1 & H1 & Hext).
  - exact (extends_trace _ _ _ Hext (Hfirst _ _ H1)).
  - apply appends_bind; [apply appends_get | auto with py].
Qed.

End Fetcher.

(** ** The crawler *)

Lemma try_except_no_raise {A} (m : M A) (h : exn -> M A) s :
  no_raise m -> try_except m h s = m s.
Proof.
  intros Hm. unfold try_except. specialize (Hm s).
  destruct (m s) as [[[a|e] s1]|]; try reflexivity.
  exfalso. exact (Hm e s1 eq_refl).
Qed.

Lemma for_each_filter {A} (P : A -> Prop) `{forall x, Decision (P x)}
    (l : list A) (body : A -> M unit) s :
  for_each l (fun x => if bool_decide (P x) then body x else ret tt) s
  = for_each (filter P l) body s.
Proof.
  revert s. induction l as [|x l IH]; intros s; [reflexivity|].
  rewrite filter_cons. simpl. destruct (decide (P x)) as [Hx|Hx].
  - rewrite (bool_decide_eq_true_2 _ Hx). simpl. unfold bind.
    destruct (body x s) as [[[[]|e] s1]|]; [apply IH | reflexivity | reflexivity].
  - rewrite (bool_decide_eq_false_2 _ Hx). unfold bind at 1. simpl. apply IH.
Qed.

Section CrawlerFacts.

Variable w : world.

Lemma process_xml_link_unfold fuel xml_link csv_filename :
  process_xml_link w (S fuel) xml_link csv_filename
  = (response <- try_except
       (response <- make_request w xml_link ;; ret (Some response))
       (fun e => logging ERROR (ErrorAccessing xml_link) ;;; ret None) ;;
     match response with
     | None => ret (Some 1)
     | Some xml_content =>
         try_except
           (root <- ET_fromstring w xml_content ;;
            if bool_decide (find [Self; Descendant "lotto"] root ≠ None)
            then parsed_data <- parse_lotto_xml w xml_content ;;
                 finish xml_link csv_filename parsed_data
            else if bool_decide (find [Self; Descendant "dataset"] root ≠ None)
            then parsed_data <- process_dataset_xml w (process_xml_link w fuel)
                                  xml_content csv_filename xml_link ;;
                 finish xml_link csv_filename parsed_data
            else logging ERROR (UnknownStructure xml_link) ;;; ret None)
           (fun e => logging ERROR (ErrorProcessing xml_link) ;;; ret (Some 2))
     end).
Proof. reflexivity. Qed.

(** [process_xml_link] never raises: each of its two [try] statements
    catches every exception and returns a code. *)
Lemma no_raise_process_xml_link fuel xml_link csv_filename :
  no_raise (process_xml_link w fuel xml_link csv_filename).
Proof.
  destruct fuel as [|fuel]; [intros s e s' H; discriminate|].
  rewrite process_xml_link_unfold.
  apply no_raise_bind; [auto with py|].
  intros [xml_content|]; auto with py.
Qed.

(** After a successful fetch. *)
Lemma process_xml_link_fetched fuel xml_link csv_filename s xml_content s1 :
  make_request w xml_link s = Some (Return xml_content, s1) ->
  process_xml_link w (S fuel) xml_link csv_filename s
  = try_except
      (root <- ET_fromstring w xml_content ;;
       if bool_decide (find [Self; Descendant "lotto"] root ≠ None)
       then parsed_data <- parse_lotto_xml w xml_content ;;
            finish xml_link csv_filename parsed_data
       else if bool_decide (find [Self; Descendant "dataset"] root ≠ None)
       then parsed_data <- process_dataset_xml w (process_xml_link w fuel)
                             xml_content csv_filename xml_link ;;
            finish xml_link csv_filename parsed_data
       else logging ERROR (UnknownStructure xml_link) ;;; ret None)
      (fun e => logging ERROR (ErrorProcessing xml_link) ;;; ret (Some 2)) s1.
Proof.
  intros H. rewrite process_xml_link_unfold.
  unfold bind at 1. unfold try_except at 1. unfold bind at 1. rewrite H.
  reflexivity.
Qed.

(** After a failed fetch. *)
Lemma process_xml_link_not_fetched fuel xml_link csv_filename s e s1 :
  make_request w xml_link s = Some (Raise e, s1) ->
  process_xml_link w (S fuel) xml_link csv_filename s
  = Some (Return (Some 1),
          State (trace s1) (files s1) (log s1 ++ [(ERROR, ErrorAccessing xml_link)])).
Proof.
  intros H. rewrite process_xml_link_unfold.
  unfold bind at 1. unfold try_except at 1. unfold bind at 1. rewrite H.
  reflexivity.
Qed.

Lemma appends_ET_fromstring xml_content : appends (ET_fromstring w xml_content).
Proof. unfold ET_fromstring. destruct (fromstring w xml_content); auto with py. Qed.

Lemma appends_dot_text x : appends (dot_text x).
Proof. destruct x; simpl; auto with py. Qed.

Lemma appends_dot_text_strip x : appends (dot_text_strip x).
Proof. destruct x as [[t [x|] cs]|]; simpl; auto with py. Qed.

Lemma appends_parse_lotto_loop lotti results :
  appends (parse_lotto_loop lotti results).
Proof.
  revert results. induction lotti as [|lotto lotti IH]; intros results; simpl.
  - auto with py.
  - repeat (apply appends_bind; [apply appends_dot_text | intros ?]). apply IH.
Qed.

Lemma appends_parse_lotto_xml xml_content :
  appends (parse_lotto_xml w xml_content).
Proof.
  apply appends_try_except.
  - apply appends_bind; [apply appends_ET_fromstring | intros root].
    apply appends_bind; [apply appends_parse_lotto_loop | auto with py].
  - intros []; auto with py.
Qed.

Lemma appends_process_dataset_xml rec xml_content csv_filename parent_xml_link :
  (forall link f, appends (rec link f)) ->
  appends (process_dataset_xml w rec xml_content csv_filename parent_xml_link).
Proof.
  intros Hrec. apply appends_try_except.
  - apply appends_bind; [apply appends_ET_fromstring | intros root].
    apply appends_bind; [|auto with py].
    apply appends_for_each. intros link. destruct (bool_decide _); auto with py.
  - intros []; auto with py.
Qed.

Lemma appends_finish xml_link csv_filename parsed_data :
  appends (finish xml_link csv_filename parsed_data).
Proof.
  apply appends_bind; [|auto with py]. destruct (truthy _); auto with py.
Qed.

Lemma appends_process_xml_link fuel xml_link csv_filename :
  appends (process_xml_link w fuel xml_link csv_filename).
Proof.
  revert xml_link csv_filename.
  induction fuel as [|fuel IH]; intros xml_link csv_filename.
  - intros s r s' H. discriminate.
  - rewrite process_xml_link_unfold. apply appends_bind.
    + apply appends_try_except; [|auto with py].
      apply appends_bind; [apply appends_make_request | auto with py].
    + intros [xml_content|]; [|auto with py].
      apply appends_try_except; [|auto with py].
      apply appends_bind; [apply appends_ET_fromstring | intros root].
      destruct (bool_decide _).
      * apply appends_bind; [apply appends_parse_lotto_xml|].
        intros pd. apply appends_finish.
      * destruct (bool_decide _); [|auto with py].
        apply appends_bind; [apply appends_process_dataset_xml; exact IH|].
        intros pd. apply appends_finish.
Qed.

(** Whatever [process_xml_link] ends with, the URL has been asked for. *)
Lemma process_xml_link_requested fuel xml_link csv_filename s r s' :
  process_xml_link w fuel xml_link csv_filename s = Some (r, s') ->
  Request xml_link ∈ trace s'.
Proof.
  intros H.
  assert (Hreq : exists o s1,
    make_request w xml_link s = Some (o, s1) /\ extends s1 s').
  { destruct fuel as [|fuel]; [discriminate|].
    destruct (make_request w xml_link s) as [[[xml_content|e] s1]|] eqn:Hreq.
    - exists (Return xml_content), s1. split; [reflexivity|].
      rewrite (process_xml_link_fetched _ _ _ _ _ _ Hreq) in H.
      refine ((_ : appends _) s1 r s' H).
      apply appends_try_except; [|auto with py].
      apply appends_bind; [apply appends_ET_fromstring | intros root].
      destruct (bool_decide _).
      + apply appends_bind; [apply appends_parse_lotto_xml|].
        intros pd. apply appends_finish.
      + destruct (bool_decide _); [|auto with py].
        apply appends_bind;
          [apply appends_process_dataset_xml; apply appends_process_xml_link|].
        intros pd. apply appends_finish.
    - exists (Raise e), s1. split; [reflexivity|].
      rewrite (process_xml_link_not_fetched _ _ _ _ _ _ Hreq) in H.
      inversion H; subst. split; [|intros f]; reflexivity.
    - rewrite process_xml_link_unfold in H.
      rewrite bind_unfold in H. unfold try_except in H.
      rewrite bind_unfold, Hreq in H. discriminate. }
  destruct Hreq as (o & s1 & Hreq & Hext).
  exact (extends_trace _ _ _ Hext (make_request_requested _ _ _ _ _ Hreq)).
Qed.

End CrawlerFacts.

Section ExtractorFacts.

Variable w : world.

(** One lot without a mandatory field is enough for the loop to raise, and
    the list is lost. *)
Lemma parse_lotto_loop_missing lotti results s :
  (exists lotto, lotto ∈ lotti /\ lacks_mandatory_field lotto) ->
  parse_lotto_loop lotti results s = Some (Raise AttributeError, s).
Proof.
  revert results. induction lotti as [|lotto lotti IH]; intros results Hex.
  - destruct Hex as (l & Hl & _). apply elem_of_nil in Hl. contradiction.
  - simpl.
    destruct (find [Self; Child "strutturaProponente"; Child "denominazione"] lotto)
      as [e1|] eqn:E1; [|reflexivity].
    destruct (find [Self; Child "strutturaProponente"; Child "codiceFiscaleProp"] lotto)
      as [e2|] eqn:E2; [|reflexivity].
    destruct (find [Self; Child "cig"] lotto) as [e3|] eqn:E3; [|reflexivity].
    unfold bind; simpl. apply IH.
    destruct Hex as (l & Hl & Hlacks).
    apply elem_of_cons in Hl as [->|Hl]; [|eauto].
    destruct Hlacks as [H|[H|H]]; congruence.
Qed.

Lemma parse_lotto_xml_missing xml_content root lotto s :
  fromstring w xml_content = Some root ->
  lotto ∈ findall [Self; Descendant "lotto"] root ->
  lacks_mandatory_field lotto ->
  parse_lotto_xml w xml_content s = Some (Raise AttributeError, s).
Proof.
  intros Hroot Hin Hlacks. unfold parse_lotto_xml, try_except, bind, ET_fromstring.
  rewrite Hroot. simpl.
  rewrite parse_lotto_loop_missing by eauto. reflexivity.
Qed.

End ExtractorFacts.

(** ** The expansion of a dataset document *)

Section Expansion.

Variable w : world.

Lemma process_xml_link_expands
    (fuel : nat) (xml_link : option string) (csv_filename : string)
    (s : state) (xml_content : string) (s1 : state) (root : element) :
  make_request w xml_link s = Some (Return xml_content, s1) ->
  fromstring w xml_content = Some root ->
  find [Self; Descendant "lotto"] root = None ->
  find [Self; Descendant "dataset"] root <> None ->
  process_xml_link w (S fuel) xml_link csv_filename s
  = (for_each
       (filter (fun link => link <> xml_link)
               (map text (findall [Self; Descendant "linkDataset"] root)))
       (fun link => _ <- process_xml_link w fuel link csv_filename ;; ret tt) ;;;
     ret (Some 0)) s1.
Proof.
  intros Hreq Hroot Hlotto Hdataset.
  rewrite (process_xml_link_fetched _ _ _ _ _ _ _ Hreq).
  unfold try_except at 1. unfold bind at 1. unfold ET_fromstring at 1.
  rewrite Hroot. simpl. rewrite Hlotto. simpl.
  rewrite (bool_decide_eq_true_2 _ Hdataset).
  unfold bind at 1. unfold process_dataset_xml, try_except.
  unfold bind at 1. unfold ET_fromstring. rewrite Hroot. simpl.
  unfold bind at 1.
  rewrite (for_each_filter (fun link => link <> xml_link)
             (map text (findall [Self; Descendant "linkDataset"] root))
             (fun link => _ <- process_xml_link w fuel link csv_filename ;; ret tt)).
  destruct (for_each _ _ s1) as [[[[]|e] s2]|] eqn:Hloop;
    [ rewrite bind_unfold, Hloop; reflexivity
    | | rewrite bind_unfold, Hloop; reflexivity ].
  exfalso. revert Hloop. apply no_raise_for_each.
  intros link. apply no_raise_bind; [apply no_raise_process_xml_link | auto with py].
Qed.


(** An answered request: [make_request] returns the text at the first
    attempt. *)
Lemma make_request_answered url status_code response_text s :
  requests_get w (requests_made s) url = Reply status_code response_text ->
  (400 <=? status_code) && (status_code <? 600) = false ->
  make_request w (Some url) s
  = Some (Return response_text,
          State (trace s ++ [Request (Some url)]) (files s)
                (log s ++ [(INFO, Fetched (Some url))])).
Proof.
  intros Hreply Hstatus. rewrite make_request_unfold, call_unfold.
  unfold bind, get, bind, record_event. simpl. rewrite Hreply, Hstatus.
  reflexivity.
Qed.

End Expansion.

(** Two dataset documents that list each other: the crawler goes from one
    to the other without end. *)
Lemma mutual_links_never_return fuel :
  forall csv_filename s,
    process_xml_link mutual_links fuel (Some "http://p") csv_filename s = None
    /\ process_xml_link mutual_links fuel (Some "http://d") csv_filename s = None.
Proof.
  induction fuel as [|fuel IH]; intros csv_filename s; [split; reflexivity|].
  split.
  - rewrite (process_xml_link_expands mutual_links fuel (Some "http://p")
               csv_filename s "http://p" _ (dataset_document ["http://d"])
               (make_request_answered mutual_links "http://p" 200 "http://p" s
                  eq_refl eq_refl)
               eq_refl eq_refl ltac:(discriminate)).
    change (filter _ _) with [Some "http://d"].
    simpl. rewrite !bind_unfold. now rewrite (proj2 (IH _ _)).
  - rewrite (process_xml_link_expands mutual_links fuel (Some "http://d")
               csv_filename s "http://d" _ (dataset_document ["http://p"])
               (make_request_answered mutual_links "http://d" 200 "http://d" s
                  eq_refl eq_refl)
               eq_refl eq_refl ltac:(discriminate)).
    change (filter _ _) with [Some "http://p"].
    simpl. rewrite !bind_unfold. now rewrite (proj1 (IH _ _)).
Qed.

(** ** The driver *)

Lemma appends_open_append f : appends (open_append f).
Proof.
  intros s r s' H. rewrite open_append_rows in H. inversion H; subst.
  apply extends_append_rows.
Qed.

Lemma appends_writerow f row : appends (writerow f row).
Proof.
  intros s r s' H. rewrite writerow_rows in H. inversion H; subst.
  apply extends_append_rows.
Qed.

Lemma update_status_csv_rows f row s :
  update_status_csv f row s = Some (Return tt, append_rows f [row] s).
Proof.
  unfold update_status_csv. rewrite bind_unfold, open_append_rows, writerow_rows.
  rewrite append_rows_append. reflexivity.
Qed.

Lemma appends_update_status_csv f row : appends (update_status_csv f row).
Proof.
  intros s r s' H. rewrite update_status_csv_rows in H. inversion H; subst.
  apply extends_append_rows.
Qed.

Lemma elem_of_append_rows f row s : row ∈ files (append_rows f [row] s) !!! f.
Proof.
  unfold append_rows; simpl. rewrite lookup_total_insert_eq. set_solver.
Qed.

Section DriverFacts.

Variable w : world.

(** The loop over the links of a dataset document: when it comes back, it
    has raised nothing, and every link that differs from the parent has
    been asked for. *)
Lemma links_requested fuel csv_filename parent_xml_link links s r s' :
  for_each links (fun link =>
    if bool_decide (link ≠ parent_xml_link)
    then _ <- process_xml_link w fuel link csv_filename ;; ret tt
    else ret tt) s = Some (r, s') ->
  r = Return tt
  /\ forall link, link ∈ links -> link <> parent_xml_link ->
       Request link ∈ trace s'.
Proof.
  assert (Hbody : forall link, appends
    (if bool_decide (link ≠ parent_xml_link)
     then _ <- process_xml_link w fuel link csv_filename ;; ret tt
     else ret tt)).
  { intros link. destruct (bool_decide _); [|auto with py].
    apply appends_bind; [apply appends_process_xml_link | auto with py]. }
  revert s. induction links as [|l links IH]; intros s H.
  - inversion H; subst. split; [reflexivity|].
    intros link Hin. apply elem_of_nil in Hin. contradiction.
  - simpl in H. apply bind_inv in H as [(e & H & _)|([] & s1 & H1 & H2)].
    + exfalso. destruct (bool_decide _); [|discriminate].
      revert H. apply no_raise_bind; [apply no_raise_process_xml_link | auto with py].
    + destruct (IH _ H2) as [-> Hrest]. split; [reflexivity|].
      intros link Hin Hne. apply elem_of_cons in Hin as [->|Hin]; [|auto].
      rewrite (bool_decide_eq_true_2 _ Hne) in H1.
      apply bind_inv in H1 as [(e & _ & He)|(code & s2 & H1 & H3)];
        [discriminate|].
      inversion H3; subst.
      apply (extends_trace s1).
      * exact (appends_for_each _ _ Hbody _ _ _ H2).
      * exact (process_xml_link_requested _ _ _ _ _ _ _ H1).
Qed.

Lemma main_loop_seed fuel year output_filename status_filename i
    comunicazione rest cf_ente name_ente url s :
  seed comunicazione = Some (cf_ente, name_ente, url) ->
  main_loop w fuel year output_filename status_filename i (comunicazione :: rest) s
  = (logging INFO (Processing url) ;;;
     return_code <- process_xml_link w fuel (Some url) output_filename ;;
     year' <- match year with
              | Some y => ret y
              | None => raise NameError
              end ;;
     update_status_csv status_filename
       [CStr year'; CStr cf_ente; CStr name_ente; CStr url;
        match return_code with Some z => CInt z | None => CNone end] ;;;
     main_loop w fuel year output_filename status_filename (S i) rest) s.
Proof.
  unfold seed. simpl. unfold try_except. rewrite bind_unfold. rewrite (bind_unfold _ _ s).
  destruct (find [Child "codiceFiscale"] comunicazione) as [[t1 [x1|] c1]|];
    try discriminate.
  destruct (find [Child "ragioneSociale"] comunicazione) as [e2|]; try discriminate.
  destruct (find [Child "url"] comunicazione) as [[t3 [x3|] c3]|];
    try discriminate.
  intros H. inversion H; subst. reflexivity.
Qed.

Lemma main_loop_no_seed fuel year output_filename status_filename i
    comunicazione rest s :
  seed comunicazione = None ->
  main_loop w fuel year output_filename status_filename i (comunicazione :: rest) s
  = main_loop w fuel year output_filename status_filename (S i) rest
      (State (trace s) (files s) (log s ++ [(ERROR, ErrorComunicazione i)])).
Proof.
  unfold seed. simpl. unfold try_except. rewrite bind_unfold. rewrite (bind_unfold _ _ s).
  destruct (find [Child "codiceFiscale"] comunicazione) as [[t1 [x1|] c1]|];
    try reflexivity.
  destruct (find [Child "ragioneSociale"] comunicazione) as [e2|]; try reflexivity.
  destruct (find [Child "url"] comunicazione) as [[t3 [x3|] c3]|];
    try reflexivity; discriminate.
Qed.

Lemma appends_main_loop fuel year output_filename status_filename i comunicazioni :
  appends (main_loop w fuel year output_filename status_filename i comunicazioni).
Proof.
  revert i. induction comunicazioni as [|c rest IH]; intros i; [simpl; auto with py|].
  intros s r s' H. destruct (seed c) as [[[cf_ente name_ente] url]|] eqn:Hseed.
  - rewrite (main_loop_seed _ _ _ _ _ _ _ _ _ _ _ Hseed) in H.
    revert H. apply appends_bind; [auto with py|]. intros _.
    apply appends_bind; [apply appends_process_xml_link|]. intros code.
    apply appends_bind; [destruct year; auto with py|]. intros y.
    apply appends_bind; [apply appends_update_status_csv|]. intros _. apply IH.
  - rewrite (main_loop_no_seed _ _ _ _ _ _ _ _ Hseed) in H.
    etransitivity; [|exact (IH _ _ _ _ H)].
    split; [|intros f]; reflexivity.
Qed.

End DriverFacts.

(** ** The store of list objects *)







(** ** Refused attempts and their exceptions *)

Section Refusals.

Variable w : world.

Lemma attempt_refusal xml_link s :
  refused w (requests_made s) xml_link = true ->
  (response <- get w xml_link ;;
   logging INFO (Fetched xml_link) ;;; ret response) s
  = Some (Raise (refusal w (requests_made s) xml_link),
          State (trace s ++ [Request xml_link]) (files s) (log s)).
Proof.
  unfold refused, refusal, bind, get, bind, record_event. simpl.
  destruct xml_link as [u|]; [|reflexivity].
  destruct (requests_get w (requests_made s) u) as [e|status_code response_text].
  - reflexivity.
  - now intros ->.
Qed.

Lemma call_refusal r fuel n xml_link s :
  refused w (requests_made s) xml_link = true ->
  call w r (S fuel) n
    (response <- get w xml_link ;;
     logging INFO (Fetched xml_link) ;;; ret response) s
  = if stop r n (delay_since_first_attempt_ms w (S (requests_made s)))
    then Some (Raise (refusal w (requests_made s) xml_link),
               State (trace s ++ [Request xml_link]) (files s) (log s))
    else call w r fuel (S n)
           (response <- get w xml_link ;;
            logging INFO (Fetched xml_link) ;;; ret response)
           (State ((trace s ++ [Request xml_link]) ++ [Sleep (wait_fixed r)])
                  (files s) (log s)).
Proof.
  intros Hrefused.
  rewrite call_unfold, (attempt_refusal xml_link s Hrefused), requests_made_request.
  reflexivity.
Qed.

(** When every attempt is refused, [make_request] raises the exception of
    the attempt it gives up after. *)
Lemma make_request_refusal xml_link s :
  (forall n, refused w n xml_link = true) ->
  make_request w xml_link s
  = Some (Raise (refusal w
                   (requests_made s
                    + last_attempt
                        (delay_since_first_attempt_ms w (requests_made s + 1))
                        (delay_since_first_attempt_ms w (requests_made s + 2)))
                   xml_link),
          State (trace s
                 ++ refused_attempts xml_link
                      (delay_since_first_attempt_ms w (requests_made s + 1))
                      (delay_since_first_attempt_ms w (requests_made s + 2)))
                (files s) (log s)).
Proof.
  intros Hrefused. unfold refused_attempts, last_attempt.
  rewrite make_request_unfold.
  replace (requests_made s + 1)%nat with (S (requests_made s)) by lia.
  replace (requests_made s + 2)%nat with (S (S (requests_made s))) by lia.
  rewrite (call_refusal
             {| stop_max_attempt_number := 3; wait_fixed := 1000;
                stop_max_delay := 5000 |} 2 1 xml_link s (Hrefused _)).
  unfold stop at 1. cbn [stop_max_attempt_number stop_max_delay wait_fixed].
  change (3 <=? 1)%nat with false. cbn [orb].
  destruct (5000 <=? _).
  { replace (requests_made s + 0)%nat with (requests_made s) by lia. reflexivity. }
  match goal with
  | |- context [call _ _ _ _ _ ?s1] =>
      rewrite (call_refusal
                 {| stop_max_attempt_number := 3; wait_fixed := 1000;
                    stop_max_delay := 5000 |} 1 2 xml_link s1 (Hrefused _))
  end.
  rewrite requests_made_sleep_request.
  unfold stop at 1. cbn [stop_max_attempt_number stop_max_delay wait_fixed].
  change (3 <=? 2)%nat with false. cbn [orb trace files log].
  rewrite <- !app_assoc. cbn [app].
  destruct (5000 <=? _).
  { replace (requests_made s + 1)%nat with (S (requests_made s)) by lia.
    reflexivity. }
  match goal with
  | |- context [call _ _ _ _ _ ?s1] =>
      rewrite (call_refusal
                 {| stop_max_attempt_number := 3; wait_fixed := 1000;
                    stop_max_delay := 5000 |} 0 3 xml_link s1 (Hrefused _));
      assert (Hmade : requests_made s1 = S (S (requests_made s)))
  end.
  { unfold requests_made. cbn [trace].
    rewrite !List.filter_app, !List.length_app. simpl. lia. }
  rewrite Hmade.
  unfold stop at 1. cbn [stop_max_attempt_number stop_max_delay wait_fixed].
  change (3 <=? 3)%nat with true. cbn [orb trace files log].
  rewrite <- !app_assoc. cbn [app].
  replace (requests_made s + 2)%nat with (S (S (requests_made s))) by lia.
  reflexivity.
Qed.

End Refusals.
(** * The claims *)

(** ** Rows *)

(** C1. For a lot whose list of participants is not empty, [update_csv]
    writes one row per entry of that list, in the order of the list, each
    with the lot's entity name, entity tax id and award id, and with the
    winner flag 1 when the participant is among the awardees and 0
    otherwise; a participant that occurs twice gets two rows.  The rows of
    the lot stand between those of the lots before and after it. *)
Theorem update_csv_participants
    (csv_filename : string) (ente cf_ente cig : option string)
    (partecipanti aggiudicatari : list (option string))
    (before after : list lot) (s : state) :
  partecipanti <> [] ->
  update_csv csv_filename
    (before ++ (ente, cf_ente, cig, partecipanti, aggiudicatari) :: after) s
  = Some (Return tt,
      append_rows csv_filename
        (flat_map rows_of before
         ++ map (fun p => [cell_of ente; cell_of cf_ente; cell_of cig; cell_of p;
                           CInt (if bool_decide (p ∈ aggiudicatari) then 1 else 0)])
                partecipanti
         ++ flat_map rows_of after) s).
Proof.
  intros Hne. rewrite update_csv_rows, flat_map_app. simpl.
  destruct partecipanti as [|p ps]; [contradiction|].
  replace ((0 <? List.length aggiudicatari)%nat && (List.length (p :: ps) =? 0)%nat)
    with false by (simpl; now rewrite andb_false_r).
  reflexivity.
Qed.

Lemma update_csv_participants_witness :
  update_csv "out.csv"
    [(Some "Comune", Some "001", Some "Z1", [Some "A"; Some "B"; Some "B"],
      [Some "B"])]
    (State [] ∅ [])
  = Some (Return tt,
      append_rows "out.csv"
        [[CStr "Comune"; CStr "001"; CStr "Z1"; CStr "A"; CInt 0];
         [CStr "Comune"; CStr "001"; CStr "Z1"; CStr "B"; CInt 1];
         [CStr "Comune"; CStr "001"; CStr "Z1"; CStr "B"; CInt 1]]
        (State [] ∅ [])).
Proof.
  apply (update_csv_participants "out.csv" (Some "Comune") (Some "001") (Some "Z1")
           [Some "A"; Some "B"; Some "B"] [Some "B"] [] [] (State [] ∅ [])).
  discriminate.
Defined.

(** C2. For a lot with no participant and at least one awardee,
    [update_csv] takes the awardees for the participants: it writes one row
    per awardee, in the order of the awardees, each with the winner flag
    1. *)
Theorem update_csv_implicit_participants
    (csv_filename : string) (ente cf_ente cig : option string)
    (aggiudicatari : list (option string))
    (before after : list lot) (s : state) :
  aggiudicatari <> [] ->
  update_csv csv_filename
    (before ++ (ente, cf_ente, cig, [], aggiudicatari) :: after) s
  = Some (Return tt,
      append_rows csv_filename
        (flat_map rows_of before
         ++ map (fun a => [cell_of ente; cell_of cf_ente; cell_of cig; cell_of a;
                           CInt 1])
                aggiudicatari
         ++ flat_map rows_of after) s).
Proof.
  intros Hne. rewrite update_csv_rows, flat_map_app. simpl.
  destruct aggiudicatari as [|a ags]; [contradiction|].
  do 4 f_equal. f_equal.
  change (map (fun p => [cell_of ente; cell_of cf_ente; cell_of cig; cell_of p;
                CInt (if bool_decide (p ∈ a :: ags) then 1 else 0)]) (a :: ags)
          = map (fun p => [cell_of ente; cell_of cf_ente; cell_of cig; cell_of p;
                CInt 1]) (a :: ags)).
  apply map_ext_in. intros p Hp.
  rewrite bool_decide_eq_true_2; [reflexivity|].
  apply list_elem_of_In. exact Hp.
Qed.

Lemma update_csv_implicit_participants_witness :
  update_csv "out.csv"
    [(Some "Comune", Some "001", Some "Z1", [], [Some "X"; Some "Y"])]
    (State [] ∅ [])
  = Some (Return tt,
      append_rows "out.csv"
        [[CStr "Comune"; CStr "001"; CStr "Z1"; CStr "X"; CInt 1];
         [CStr "Comune"; CStr "001"; CStr "Z1"; CStr "Y"; CInt 1]]
        (State [] ∅ [])).
Proof.
  apply (update_csv_implicit_participants "out.csv" (Some "Comune") (Some "001")
           (Some "Z1") [Some "X"; Some "Y"] [] [] (State [] ∅ [])).
  discriminate.
Defined.

(** ** The identifier of a participant or an awardee *)

Lemma first_variant_present element before variant after c :
  (forall v, v ∈ before -> find [Child v] element = None) ->
  find [Child variant] element = Some c ->
  first_variant element (before ++ variant :: after) = text c.
Proof.
  intros Hbefore Hfind. induction before as [|v before IH]; simpl.
  - now rewrite Hfind.
  - rewrite (Hbefore v) by set_solver. apply IH.
    intros v' Hv'. apply Hbefore. set_solver.
Qed.

Lemma first_variant_absent element vs :
  (forall v, v ∈ vs -> find [Child v] element = None) ->
  first_variant element vs = None.
Proof.
  intros Habsent. induction vs as [|v vs IH]; simpl; [reflexivity|].
  rewrite (Habsent v) by set_solver. apply IH.
  intros v' Hv'. apply Habsent. set_solver.
Qed.

(** C7, as the code has it.  [get_attribute_value] tries the synonyms of
    the attribute in the order of the vocabulary and returns the text of the
    first one that the element has as a child, or [None] when the element
    has none of them.  In particular, for an element that has
    [identificativoFiscaleEstero] and not [codiceFiscale], the identifier is
    the text of that child: it is not [None] when the child has text, and
    it is [None] when the child is empty. *)
Theorem get_attribute_value_first_synonym
    (element : element) (attribute_name : string) :
  (forall before variant after c,
      variants attribute_name = before ++ variant :: after ->
      (forall v, v ∈ before -> find [Child v] element = None) ->
      find [Child variant] element = Some c ->
      get_attribute_value element attribute_name = text c)
  /\ ((forall v, v ∈ variants attribute_name -> find [Child v] element = None) ->
      get_attribute_value element attribute_name = None)
  /\ (forall c,
      find [Child "codiceFiscale"] element = None ->
      find [Child "identificativoFiscaleEstero"] element = Some c ->
      get_attribute_value element "codiceFiscale" = text c
      /\ forall t, text c = Some t ->
           get_attribute_value element "codiceFiscale" = Some t).
Proof.
  unfold get_attribute_value. repeat split.
  - intros before variant after c -> Hbefore Hfind.
    now apply first_variant_present.
  - apply first_variant_absent.
  - change (variants "codiceFiscale")
      with (["codiceFiscale"] ++ "identificativoFiscaleEstero" :: []).
    apply first_variant_present; [|assumption].
    intros v Hv. apply list_elem_of_singleton in Hv as ->. assumption.
  - intros t <-.
    change (variants "codiceFiscale")
      with (["codiceFiscale"] ++ "identificativoFiscaleEstero" :: []).
    apply first_variant_present; [|assumption].
    intros v Hv. apply list_elem_of_singleton in Hv as ->. assumption.
Qed.

Lemma get_attribute_value_first_synonym_witness :
  get_attribute_value
    (Element "partecipante" None
       [Element "ragioneSociale" (Some "ACME") [];
        Element "identificativoFiscaleEstero" (Some "DE123") []])
    "codiceFiscale"
  = Some "DE123"
  /\ get_attribute_value
       (Element "partecipante" None
          [Element "codiceFiscale" (Some "IT1") [];
           Element "identificativoFiscaleEstero" (Some "DE123") []])
       "codiceFiscale"
     = Some "IT1"
  /\ get_attribute_value
       (Element "partecipante" None [Element "ragioneSociale" (Some "ACME") []])
       "codiceFiscale"
     = None.
Proof.
  split; [|split].
  - apply (proj2 (proj2 (get_attribute_value_first_synonym
             (Element "partecipante" None
                [Element "ragioneSociale" (Some "ACME") [];
                 Element "identificativoFiscaleEstero" (Some "DE123") []])
             "codiceFiscale"))
             (Element "identificativoFiscaleEstero" (Some "DE123") []));
      reflexivity.
  - apply (proj1 (get_attribute_value_first_synonym
             (Element "partecipante" None
                [Element "codiceFiscale" (Some "IT1") [];
                 Element "identificativoFiscaleEstero" (Some "DE123") []])
             "codiceFiscale")
             [] "codiceFiscale" ["identificativoFiscaleEstero"]
             (Element "codiceFiscale" (Some "IT1") []));
      [reflexivity | | reflexivity].
    intros v Hv. apply elem_of_nil in Hv. contradiction.
  - apply (proj1 (proj2 (get_attribute_value_first_synonym
             (Element "partecipante" None
                [Element "ragioneSociale" (Some "ACME") []])
             "codiceFiscale"))).
    intros v Hv. vm_compute in Hv.
    apply list_elem_of_In in Hv. simpl in Hv.
    destruct Hv as [<-|[<-|[]]]; reflexivity.
Defined.

(** C7, as the claim has it, fails: an element whose only child is an
    empty [identificativoFiscaleEstero] shows the second synonym and not
    the first, and its identifier is [None]. *)
Lemma empty_synonym_gives_none :
  find [Child "codiceFiscale"]
    (Element "partecipante" None
       [Element "identificativoFiscaleEstero" None []])
  = None
  /\ find [Child "identificativoFiscaleEstero"]
       (Element "partecipante" None
          [Element "identificativoFiscaleEstero" None []])
     = Some (Element "identificativoFiscaleEstero" None [])
  /\ get_attribute_value
       (Element "partecipante" None
          [Element "identificativoFiscaleEstero" None []])
       "codiceFiscale"
     = None.
Proof. repeat split. Qed.

(** ** Documents *)

Section Documents.

Variable w : world.

(** C6. When the document fetched from a URL is well formed and has neither
    a [lotto] nor a [dataset] below its root, [process_xml_link] raises
    nothing, writes to no file, and returns [None], which is not the
    code 0. *)
Theorem process_xml_link_unknown_structure
    (fuel : nat) (xml_link : option string) (csv_filename : string)
    (s : state) (xml_content : string) (s1 : state) (root : element) :
  make_request w xml_link s = Some (Return xml_content, s1) ->
  fromstring w xml_content = Some root ->
  find [Self; Descendant "lotto"] root = None ->
  find [Self; Descendant "dataset"] root = None ->
  process_xml_link w (S fuel) xml_link csv_filename s
  = Some (Return None,
          State (trace s1) (files s)
                (log s1 ++ [(ERROR, UnknownStructure xml_link)]))
  /\ (None : option Z) <> Some 0.
Proof.
  intros Hreq Hroot Hlotto Hdataset. split; [|discriminate].
  rewrite (process_xml_link_fetched _ _ _ _ _ _ _ Hreq).
  unfold try_except, bind, ET_fromstring. rewrite Hroot. simpl.
  rewrite Hlotto, Hdataset. simpl.
  rewrite (keeps_files_make_request _ _ _ _ _ Hreq). reflexivity.
Qed.

(** C3, as the code has it.  When one [lotto] of a well-formed document
    lacks a mandatory field, the extraction of the whole document fails:
    [process_xml_link] returns the code 2 and writes to no file, so that no
    row is written for any lot of the document. *)
Theorem process_xml_link_missing_field
    (fuel : nat) (xml_link : option string) (csv_filename : string)
    (s : state) (xml_content : string) (s1 : state) (root lotto : element) :
  make_request w xml_link s = Some (Return xml_content, s1) ->
  fromstring w xml_content = Some root ->
  lotto ∈ findall [Self; Descendant "lotto"] root ->
  lacks_mandatory_field lotto ->
  process_xml_link w (S fuel) xml_link csv_filename s
  = Some (Return (Some 2),
          State (trace s1) (files s)
                (log s1 ++ [(ERROR, ErrorProcessing xml_link)])).
Proof.
  intros Hreq Hroot Hin Hlacks.
  rewrite (process_xml_link_fetched _ _ _ _ _ _ _ Hreq).
  unfold try_except at 1. unfold bind at 1. unfold ET_fromstring.
  rewrite Hroot. simpl.
  assert (Hfind : find [Self; Descendant "lotto"] root <> None).
  { unfold find. destruct (findall _ root); [|discriminate].
    apply elem_of_nil in Hin. contradiction. }
  rewrite (bool_decide_eq_true_2 _ Hfind).
  unfold bind at 1.
  rewrite (parse_lotto_xml_missing w _ _ _ _ Hroot Hin Hlacks).
  unfold bind, logging, ret. simpl.
  rewrite (keeps_files_make_request _ _ _ _ _ Hreq). reflexivity.
Qed.

End Documents.

Lemma process_xml_link_unknown_structure_witness :
  process_xml_link (served [("http://a", unknown_document)] 0) 1
    (Some "http://a") "out.csv" start
  = Some (Return None,
          State [Request (Some "http://a")] ∅
                [(INFO, Fetched (Some "http://a"));
                 (ERROR, UnknownStructure (Some "http://a"))]).
Proof.
  apply (process_xml_link_unknown_structure
           (served [("http://a", unknown_document)] 0) 0 (Some "http://a")
           "out.csv" start "http://a"
           (State [Request (Some "http://a")] ∅ [(INFO, Fetched (Some "http://a"))])
           unknown_document); reflexivity.
Defined.

(** C3, as the claim has it, fails: of two lots, the first without [cig],
    the second is not extracted either; no row is written and the code
    is 2. *)
Lemma sibling_lot_not_extracted :
  process_xml_link
    (served [("http://a", lot_document [lotto_without_cig; lotto_example])] 0) 1
    (Some "http://a") "out.csv" start
  = Some (Return (Some 2),
          State [Request (Some "http://a")] ∅
                [(INFO, Fetched (Some "http://a"));
                 (ERROR, ErrorProcessing (Some "http://a"))])
  /\ process_xml_link
       (served [("http://a", lot_document [lotto_example])] 0) 1
       (Some "http://a") "out.csv" start
     = Some (Return (Some 0),
          State [Request (Some "http://a")]
                {[ "out.csv" :=
                     [[CStr "Comune"; CStr "001"; CStr "Z1"; CStr "A"; CInt 0];
                      [CStr "Comune"; CStr "001"; CStr "Z1"; CStr "B"; CInt 1]] ]}
                [(INFO, Fetched (Some "http://a"));
                 (INFO, Processed (Some "http://a"))]).
Proof. split; vm_compute; reflexivity. Qed.

Lemma process_xml_link_missing_field_witness :
  process_xml_link
    (served [("http://a", lot_document [lotto_without_cig; lotto_example])] 0) 1
    (Some "http://a") "out.csv" start
  = Some (Return (Some 2),
          State [Request (Some "http://a")] ∅
                [(INFO, Fetched (Some "http://a"));
                 (ERROR, ErrorProcessing (Some "http://a"))]).
Proof.
  apply (process_xml_link_missing_field
           (served [("http://a", lot_document [lotto_without_cig; lotto_example])] 0)
           0 (Some "http://a") "out.csv" start "http://a"
           (State [Request (Some "http://a")] ∅ [(INFO, Fetched (Some "http://a"))])
           (lot_document [lotto_without_cig; lotto_example]) lotto_without_cig).
  - reflexivity.
  - reflexivity.
  - vm_compute. apply list_elem_of_here.
  - right. right. reflexivity.
Defined.

(** ** Datasets *)

Section Datasets.

Variable w : world.

(** C5, as the code has it.  The URL that [process_xml_link] hands to
    [process_dataset_xml] as [parent_xml_link] is the URL of the dataset
    document itself.  So, expanding the dataset document fetched from
    [xml_link], the crawler calls itself on the links that differ from
    [xml_link], in the order of the document, skips the links equal to
    [xml_link], and returns the code 0: a link is one of those the crawler
    calls itself on if and only if it is a link of the document that
    differs from [xml_link]. *)
Theorem process_xml_link_dataset
    (fuel : nat) (xml_link : option string) (csv_filename : string)
    (s : state) (xml_content : string) (s1 : state) (root : element) :
  make_request w xml_link s = Some (Return xml_content, s1) ->
  fromstring w xml_content = Some root ->
  find [Self; Descendant "lotto"] root = None ->
  find [Self; Descendant "dataset"] root <> None ->
  process_xml_link w (S fuel) xml_link csv_filename s
  = (for_each
       (filter (fun link => link <> xml_link)
               (map text (findall [Self; Descendant "linkDataset"] root)))
       (fun link => _ <- process_xml_link w fuel link csv_filename ;; ret tt) ;;;
     ret (Some 0)) s1
  /\ forall link,
       link ∈ filter (fun link => link <> xml_link)
                (map text (findall [Self; Descendant "linkDataset"] root))
       <-> link ∈ map text (findall [Self; Descendant "linkDataset"] root)
           /\ link <> xml_link.
Proof.
  intros Hreq Hroot Hlotto Hdataset. split.
  - exact (process_xml_link_expands w fuel xml_link csv_filename s xml_content
             s1 root Hreq Hroot Hlotto Hdataset).
  - intros link. rewrite list_elem_of_filter. split; intros [H1 H2]; now split.
Qed.

End Datasets.

Lemma process_xml_link_dataset_witness :
  process_xml_link
    (served [("http://index", dataset_document ["http://index"; "http://lots"]);
             ("http://lots", lot_document [lotto_example])] 0)
    2 (Some "http://index") "out.csv" start
  = Some (Return (Some 0),
          State [Request (Some "http://index"); Request (Some "http://lots")]
                {[ "out.csv" :=
                     [[CStr "Comune"; CStr "001"; CStr "Z1"; CStr "A"; CInt 0];
                      [CStr "Comune"; CStr "001"; CStr "Z1"; CStr "B"; CInt 1]] ]}
                [(INFO, Fetched (Some "http://index"));
                 (INFO, Fetched (Some "http://lots"));
                 (INFO, Processed (Some "http://lots"))]).
Proof.
  etransitivity.
  - apply (fun H1 H2 H3 H4 => proj1 (process_xml_link_dataset
             (served [("http://index", dataset_document ["http://index"; "http://lots"]);
                      ("http://lots", lot_document [lotto_example])] 0)
             1 (Some "http://index") "out.csv" start "http://index"
             (State [Request (Some "http://index")] ∅
                    [(INFO, Fetched (Some "http://index"))])
             (dataset_document ["http://index"; "http://lots"]) H1 H2 H3 H4));
      [reflexivity | reflexivity | reflexivity | discriminate].
  - vm_compute. reflexivity.
Defined.

(** C5, as the claim has it, fails: ["http://d"] was reached from
    ["http://p"] and lists it; expanding ["http://d"], the crawler asks for
    ["http://p"] again. *)
Lemma parent_fetched_again :
  process_xml_link back_reference 3 (Some "http://p") "out.csv" start
  = Some (Return (Some 0),
          State [Request (Some "http://p"); Request (Some "http://d");
                 Request (Some "http://p")]
                ∅
                [(INFO, Fetched (Some "http://p"));
                 (INFO, Fetched (Some "http://d"));
                 (INFO, Fetched (Some "http://p"));
                 (ERROR, UnknownStructure (Some "http://p"))])
  /\ process_dataset_xml back_reference (process_xml_link back_reference 1)
       "d" "out.csv" (Some "http://d")
       (State [Request (Some "http://p"); Request (Some "http://d")] ∅ [])
     = Some (Return None,
          State [Request (Some "http://p"); Request (Some "http://d");
                 Request (Some "http://p")]
                ∅
                [(INFO, Fetched (Some "http://p"));
                 (ERROR, UnknownStructure (Some "http://p"))]).
Proof. split; vm_compute; reflexivity. Qed.

(** ** The fetcher *)

(** C8, as the code has it.  When every attempt for a URL is refused,
    [make_request] makes at most three attempts and sleeps 1000 ms between
    two attempts.  It gives up after the first attempt when the clock of
    the decorator then reads 5000 ms or more, after the second when the
    clock then reads 5000 ms or more, and after the third anyway; it makes
    three attempts exactly when both readings are below 5000 ms.  It then
    raises the exception of the last attempt it made, and
    [process_xml_link] returns the code 1 and writes to no file. *)
Theorem make_request_refused
    (w : world) (fuel : nat) (xml_link : option string) (csv_filename : string)
    (s : state) :
  (forall n, refused w n xml_link = true) ->
  let d1 := delay_since_first_attempt_ms w (requests_made s + 1) in
  let d2 := delay_since_first_attempt_ms w (requests_made s + 2) in
  let attempts := refused_attempts xml_link d1 d2 in
  make_request w xml_link s
  = Some (Raise (refusal w (requests_made s + last_attempt d1 d2) xml_link),
          State (trace s ++ attempts) (files s) (log s))
  /\ process_xml_link w (S fuel) xml_link csv_filename s
     = Some (Return (Some 1),
             State (trace s ++ attempts) (files s)
                   (log s ++ [(ERROR, ErrorAccessing xml_link)])).
Proof.
  intros Hrefused d1 d2 attempts.
  pose proof (make_request_refusal w xml_link s Hrefused) as Hreq.
  fold d1 d2 in Hreq. fold attempts in Hreq.
  split; [exact Hreq|].
  rewrite (process_xml_link_not_fetched _ _ _ _ _ _ _ Hreq). reflexivity.
Qed.

Lemma make_request_refused_witness :
  make_request (served [] 0) (Some "http://down") start
  = Some (Raise ConnectionError,
          State [Request (Some "http://down"); Sleep 1000;
                 Request (Some "http://down"); Sleep 1000;
                 Request (Some "http://down")]
                ∅ [])
  /\ process_xml_link (served [] 0) 1 (Some "http://down") "out.csv" start
     = Some (Return (Some 1),
             State [Request (Some "http://down"); Sleep 1000;
                    Request (Some "http://down"); Sleep 1000;
                    Request (Some "http://down")]
                   ∅
                   [(ERROR, ErrorAccessing (Some "http://down"))]).
Proof.
  exact (make_request_refused (served [] 0) 0 (Some "http://down")
           "out.csv" start (fun n => eq_refl)).
Defined.

(** C8, as the claim has it, fails: when the first attempt runs into its
    timeout of five seconds, the decorator gives up at once; one request
    is made, not three. *)
Lemma one_attempt_after_timeout :
  make_request timing_out (Some "http://slow") start
  = Some (Raise Timeout, State [Request (Some "http://slow")] ∅ [])
  /\ process_xml_link timing_out 1 (Some "http://slow") "out.csv" start
     = Some (Return (Some 1),
             State [Request (Some "http://slow")] ∅
                   [(ERROR, ErrorAccessing (Some "http://slow"))]).
Proof. split; vm_compute; reflexivity. Qed.

(** ** Isolation of failures *)



(** ** The year of the run *)

(** C4, on the code.  When the name of the input file does not carry the
    year, the run does not stop before fetching: for the first entry of
    the catalogue whose fields can be read, the URL is asked for, and only
    then does the run end, with a [NameError] raised while the row of the
    status file is built. *)
Theorem main_year_unbound
    (w : world) (fuel : nat)
    (input_filename output_filename status_filename : string)
    (input_root comunicazione : element) (rest : list element)
    (cf_ente name_ente url : string) (s : state)
    (r : outcome unit) (s' : state) :
  re_search_year input_filename = None ->
  findall [Child "comunicazione"] input_root = comunicazione :: rest ->
  seed comunicazione = Some (cf_ente, name_ente, url) ->
  main w fuel input_filename output_filename status_filename input_root s
  = Some (r, s') ->
  r = Raise NameError /\ Request (Some url) ∈ trace s'.
Proof.
  intros Hyear Hentries Hseed. unfold main. rewrite Hyear, Hentries.
  rewrite (main_loop_seed _ _ _ _ _ _ _ _ _ _ _ _ Hseed). intros H.
  apply bind_inv in H as [(e & H & _)|([] & s1 & _ & H)]; [discriminate|].
  apply bind_inv in H as [(e & H & _)|(code & s2 & Hplx & H)];
    [exfalso; exact (no_raise_process_xml_link _ _ _ _ _ _ _ H)|].
  rewrite bind_unfold in H. simpl in H. inversion H; subst.
  split; [reflexivity|].
  exact (process_xml_link_requested _ _ _ _ _ _ _ Hplx).
Qed.

Lemma main_year_unbound_witness :
  main lots_and_index 2 "data/catalogue.xml" "out.csv" "status.csv"
    (Element "legge190" None [comunicazione_example "002" "http://lots"]) start
  = Some (Raise NameError,
          State [Request (Some "http://lots")]
                {[ "out.csv" :=
                     [[CStr "Comune"; CStr "001"; CStr "Z1"; CStr "A"; CInt 0];
                      [CStr "Comune"; CStr "001"; CStr "Z1"; CStr "B"; CInt 1]] ]}
                [(INFO, Processing "http://lots");
                 (INFO, Fetched (Some "http://lots"));
                 (INFO, Processed (Some "http://lots"))])
  /\ Request (Some "http://lots")
     ∈ [Request (Some "http://lots")].
Proof.
  split; [vm_compute; reflexivity|].
  apply (proj2 (main_year_unbound lots_and_index 2 "data/catalogue.xml" "out.csv"
           "status.csv"
           (Element "legge190" None [comunicazione_example "002" "http://lots"])
           (comunicazione_example "002" "http://lots") [] "002" EmptyString "http://lots"
           start (Raise NameError)
           (State [Request (Some "http://lots")]
                {[ "out.csv" :=
                     [[CStr "Comune"; CStr "001"; CStr "Z1"; CStr "A"; CInt 0];
                      [CStr "Comune"; CStr "001"; CStr "Z1"; CStr "B"; CInt 1]] ]}
                [(INFO, Processing "http://lots");
                 (INFO, Fetched (Some "http://lots"));
                 (INFO, Processed (Some "http://lots"))])
           ltac:(vm_compute; reflexivity) ltac:(reflexivity) ltac:(reflexivity)
           ltac:(vm_compute; reflexivity))).
Defined.

(** ** The lists of a lot are left alone *)



(** * Further properties *)

(** ** [update_csv] *)

(** X1. Writing the lots in two calls gives the file that one call with all
    the lots gives. *)
Theorem update_csv_app
    (csv_filename : string) (data1 data2 : list lot) (s : state) :
  update_csv csv_filename (data1 ++ data2) s
  = (update_csv csv_filename data1 ;;; update_csv csv_filename data2) s.
Proof.
  rewrite bind_unfold, !update_csv_rows, append_rows_append, flat_map_app.
  reflexivity.
Qed.

(** X2. [update_csv] leaves the trace, the log and every other file as they
    were; the file it is given exists afterwards, even when no row has been
    written, and what it held before is still at its head. *)
Theorem update_csv_frame
    (csv_filename other : string) (data : list lot) (s : state) :
  other <> csv_filename ->
  exists s',
    update_csv csv_filename data s = Some (Return tt, s')
    /\ trace s' = trace s
    /\ log s' = log s
    /\ files s' !! other = files s !! other
    /\ files s' !! csv_filename
       = Some (files s !!! csv_filename ++ flat_map rows_of data).
Proof.
  intros Hne. eexists. split; [apply update_csv_rows|].
  unfold append_rows; simpl. repeat split.
  - apply lookup_insert_ne. congruence.
  - apply lookup_insert_eq.
Qed.

Lemma update_csv_frame_witness :
  exists s',
    update_csv "out.csv" [] (State [] {[ "status.csv" := [[CInt 0]] ]} [])
    = Some (Return tt, s')
    /\ trace s' = []
    /\ log s' = []
    /\ files s' !! "status.csv" = Some [[CInt 0]]
    /\ files s' !! "out.csv" = Some [].
Proof.
  destruct (update_csv_frame "out.csv" "status.csv" []
              (State [] {[ "status.csv" := [[CInt 0]] ]} []))
    as (s' & Hrun & Htrace & Hlog & Hother & Hfile); [discriminate|].
  exists s'. split; [exact Hrun|]. split; [exact Htrace|]. split; [exact Hlog|].
  split; [rewrite Hother | rewrite Hfile]; reflexivity.
Defined.

(** X3. A lot with no participant and no awardee gives no row: the file is
    the one written without the lot. *)
Theorem update_csv_empty_lot
    (csv_filename : string) (ente cf_ente cig : option string)
    (before after : list lot) (s : state) :
  update_csv csv_filename (before ++ (ente, cf_ente, cig, [], []) :: after) s
  = update_csv csv_filename (before ++ after) s.
Proof. rewrite !update_csv_rows, !flat_map_app. reflexivity. Qed.

Lemma rows_of_length row : List.length (rows_of row) = row_count row.
Proof.
  destruct row as [[[[ente cf_ente] cig] partecipanti] aggiudicatari].
  unfold rows_of, row_count. rewrite length_map.
  destruct partecipanti, aggiudicatari; reflexivity.
Qed.

(** X4. The number of rows that [update_csv] adds to the file is, summed
    over the lots, the number of participants of the lot, or the number of
    its awardees when it has no participant. *)
Theorem update_csv_row_count
    (csv_filename : string) (data : list lot) (s : state) :
  exists s',
    update_csv csv_filename data s = Some (Return tt, s')
    /\ List.length (files s' !!! csv_filename)
       = (List.length (files s !!! csv_filename)
          + sum_list (map row_count data))%nat.
Proof.
  eexists. split; [apply update_csv_rows|].
  unfold append_rows; simpl. rewrite lookup_total_insert_eq, length_app.
  f_equal. induction data as [|row data IH]; simpl; [reflexivity|].
  now rewrite length_app, rows_of_length, IH.
Qed.

(** X5. Every row that [update_csv] writes has five cells, the last of which
    is the number 0 or the number 1. *)
Theorem update_csv_row_shape
    (csv_filename : string) (data : list lot) (s : state) :
  exists rows,
    update_csv csv_filename data s = Some (Return tt, append_rows csv_filename rows s)
    /\ Forall (fun row =>
         exists a b c d winner,
           row = [a; b; c; d; CInt winner] /\ (winner = 0 \/ winner = 1))
         rows.
Proof.
  exists (flat_map rows_of data). split; [apply update_csv_rows|].
  apply Forall_forall. intros row Hrow.
  apply list_elem_of_In, in_flat_map in Hrow as (lot & _ & Hrow).
  destruct lot as [[[[ente cf_ente] cig] partecipanti] aggiudicatari].
  unfold rows_of in Hrow. apply in_map_iff in Hrow as (p & <- & _).
  eexists _, _, _, _, _. split; [reflexivity|].
  destruct (bool_decide _); auto.
Qed.

(** ** [parse_lotto_xml] *)

Lemma dot_text_found x s :
  x <> None -> dot_text x s = Some (Return (from_option text None x), s).
Proof. destruct x; [reflexivity | contradiction]. Qed.

Lemma parse_lotto_loop_complete lotti results s :
  (forall lotto, lotto ∈ lotti -> ~ lacks_mandatory_field lotto) ->
  parse_lotto_loop lotti results s
  = Some (Return (results ++ map record_of lotti), s).
Proof.
  revert results. induction lotti as [|lotto lotti IH]; intros results Hall.
  - simpl. rewrite app_nil_r. reflexivity.
  - assert (Hlotto : ~ lacks_mandatory_field lotto) by (apply Hall; left).
    unfold lacks_mandatory_field in Hlotto.
    cbn [parse_lotto_loop]. rewrite !bind_unfold.
    rewrite dot_text_found by tauto. rewrite bind_unfold.
    rewrite dot_text_found by tauto. rewrite bind_unfold.
    rewrite dot_text_found by tauto.
    rewrite IH by (intros l Hl; apply Hall; now right).
    rewrite <- app_assoc. reflexivity.
Qed.

Lemma parse_lotto_xml_complete_loop w xml_content root s :
  fromstring w xml_content = Some root ->
  (forall lotto, lotto ∈ findall [Self; Descendant "lotto"] root ->
     ~ lacks_mandatory_field lotto) ->
  parse_lotto_xml w xml_content s
  = Some (Return (Some (map record_of (findall [Self; Descendant "lotto"] root))),
          s).
Proof.
  intros Hroot Hall. unfold parse_lotto_xml, try_except.
  rewrite bind_unfold. unfold ET_fromstring. rewrite Hroot. simpl.
  rewrite bind_unfold, parse_lotto_loop_complete by exact Hall. reflexivity.
Qed.

(** ** [process_xml_link] *)

Lemma finish_returns xml_link csv_filename parsed_data s r s' :
  finish xml_link csv_filename parsed_data s = Some (r, s') ->
  r = Return (Some 0).
Proof.
  unfold finish. rewrite bind_unfold.
  destruct (truthy parsed_data).
  - rewrite bind_unfold, update_csv_rows. simpl. now intros [= <- _].
  - simpl. now intros [= <- _].
Qed.

(** X7. When [process_xml_link] comes back, it comes back with one of four
    codes: [None], 0, 1 or 2. *)
Theorem process_xml_link_codes
    (w : world) (fuel : nat) (xml_link : option string) (csv_filename : string)
    (s : state) (r : outcome (option Z)) (s' : state) :
  process_xml_link w fuel xml_link csv_filename s = Some (r, s') ->
  r = Return None \/ r = Return (Some 0) \/ r = Return (Some 1)
  \/ r = Return (Some 2).
Proof.
  destruct fuel as [|fuel]; [discriminate|].
  rewrite process_xml_link_unfold. intros H.
  apply bind_inv in H as [(e & H & _)|(response & s1 & _ & H)].
  - exfalso. revert H. apply no_raise_try_except. auto with py.
  - destruct response as [xml_content|]; [|inversion H; auto].
    apply try_except_inv in H as [(a & H & ->)|(e & s2 & _ & H)].
    + apply bind_inv in H as [(e & _ & [=])|(root & s2 & _ & H)].
      destruct (bool_decide _).
      * apply bind_inv in H as [(e & _ & [=])|(pd & s3 & _ & H)].
        apply finish_returns in H. auto.
      * destruct (bool_decide _).
        -- apply bind_inv in H as [(e & _ & [=])|(pd & s3 & _ & H)].
           apply finish_returns in H. auto.
        -- rewrite bind_unfold in H. simpl in H. inversion H. auto.
    + rewrite bind_unfold in H. simpl in H. inversion H. auto.
Qed.

Lemma process_xml_link_codes_witness :
  Return (Some 2) = Return None \/ Return (Some 2) = Return (Some 0)
  \/ Return (Some 2) = Return (Some 1)
  \/ @Return (option Z) (Some 2) = Return (Some 2).
Proof.
  apply (process_xml_link_codes
           (served [("http://a", lot_document [lotto_without_cig; lotto_example])] 0)
           1 (Some "http://a") "out.csv" start (Return (Some 2))
           (State [Request (Some "http://a")] ∅
                  [(INFO, Fetched (Some "http://a"));
                   (ERROR, ErrorProcessing (Some "http://a"))])).
  vm_compute. reflexivity.
Defined.

(** X8. When the text fetched from a URL is not well-formed XML,
    [process_xml_link] returns the code 2, writes to no file and asks for
    nothing more. *)
Theorem process_xml_link_malformed
    (w : world) (fuel : nat) (xml_link : option string) (csv_filename : string)
    (s : state) (xml_content : string) (s1 : state) :
  make_request w xml_link s = Some (Return xml_content, s1) ->
  fromstring w xml_content = None ->
  process_xml_link w (S fuel) xml_link csv_filename s
  = Some (Return (Some 2),
          State (trace s1) (files s)
                (log s1 ++ [(ERROR, ErrorProcessing xml_link)])).
Proof.
  intros Hreq Hroot. rewrite (process_xml_link_fetched _ _ _ _ _ _ _ Hreq).
  unfold try_except. rewrite bind_unfold. unfold ET_fromstring. rewrite Hroot.
  rewrite <- (keeps_files_make_request _ _ _ _ _ Hreq). reflexivity.
Qed.

Lemma process_xml_link_malformed_witness :
  process_xml_link
    (World (fun _ _ => Reply 200 "<html") (fun _ => 0) (fun _ => None))
    1 (Some "http://a") "out.csv" start
  = Some (Return (Some 2),
          State [Request (Some "http://a")] ∅
                [(INFO, Fetched (Some "http://a"));
                 (ERROR, ErrorProcessing (Some "http://a"))]).
Proof.
  apply (process_xml_link_malformed
           (World (fun _ _ => Reply 200 "<html") (fun _ => 0) (fun _ => None))
           0 (Some "http://a") "out.csv" start "<html"
           (State [Request (Some "http://a")] ∅
                  [(INFO, Fetched (Some "http://a"))]));
    reflexivity.
Defined.





(** *** The only file written *)

Section WritesOnly.

Context {A B : Type}.
Variable f : string.

Lemma writes_only_keeps (m : M A) : keeps_files m -> writes_only f m.
Proof. intros Hm s r s' other H _. now rewrite (Hm _ _ _ H). Qed.

Lemma writes_only_bind (m : M A) (k : A -> M B) :
  writes_only f m -> (forall a, writes_only f (k a)) -> writes_only f (bind m k).
Proof.
  intros Hm Hk s r s' other H Hne.
  apply bind_inv in H as [(e & H & _)|(a & s1 & H1 & H2)].
  - exact (Hm _ _ _ _ H Hne).
  - rewrite (Hk _ _ _ _ _ H2 Hne). exact (Hm _ _ _ _ H1 Hne).
Qed.

Lemma writes_only_try_except (m : M A) (h : exn -> M A) :
  writes_only f m -> (forall e, writes_only f (h e)) ->
  writes_only f (try_except m h).
Proof.
  intros Hm Hh s r s' other H Hne.
  apply try_except_inv in H as [(a & H & _)|(e & s1 & H1 & H2)].
  - exact (Hm _ _ _ _ H Hne).
  - rewrite (Hh _ _ _ _ _ H2 Hne). exact (Hm _ _ _ _ H1 Hne).
Qed.

End WritesOnly.

Lemma writes_only_for_each {A} f (l : list A) (body : A -> M unit) :
  (forall x, writes_only f (body x)) -> writes_only f (for_each l body).
Proof.
  intros Hb. induction l as [|x l IH]; simpl.
  - apply writes_only_keeps, keeps_files_ret.
  - apply writes_only_bind; [apply Hb | intros _; exact IH].
Qed.

Lemma writes_only_update_csv f data : writes_only f (update_csv f data).
Proof.
  intros s r s' other H Hne. rewrite update_csv_rows in H. inversion H; subst.
  apply lookup_insert_ne. congruence.
Qed.

Lemma keeps_files_ET_fromstring w xml_content :
  keeps_files (ET_fromstring w xml_content).
Proof. unfold ET_fromstring. destruct (fromstring w xml_content); auto with py. Qed.

Lemma keeps_files_parse_lotto_xml w xml_content :
  keeps_files (parse_lotto_xml w xml_content).
Proof.
  apply keeps_files_try_except.
  - apply keeps_files_bind; [apply keeps_files_ET_fromstring | intros root].
    apply keeps_files_bind; [|auto with py].
    generalize (@nil lot).
    induction (findall [Self; Descendant "lotto"] root) as [|lotto lotti IH];
      intros results; simpl; [auto with py|].
    repeat (apply keeps_files_bind;
            [match goal with |- keeps_files (dot_text ?x) => destruct x end;
             simpl; auto with py | intros ?]).
    apply IH.
  - intros []; auto with py.
Qed.

Lemma writes_only_process_xml_link
    (w : world) (fuel : nat) (xml_link : option string) (csv_filename : string) :
  writes_only csv_filename (process_xml_link w fuel xml_link csv_filename).
Proof.
  revert xml_link. induction fuel as [|fuel IH]; intros xml_link.
  - intros s r s' other H. discriminate.
  - rewrite process_xml_link_unfold. apply writes_only_bind.
    + apply writes_only_keeps, keeps_files_try_except; [|auto with py].
      apply keeps_files_bind; [apply keeps_files_make_request | auto with py].
    + intros [xml_content|]; [|apply writes_only_keeps; auto with py].
      assert (Hfinish : forall pd, writes_only csv_filename
                (finish xml_link csv_filename pd)).
      { intros pd. apply writes_only_bind; [|intros; apply writes_only_keeps; auto with py].
        destruct (truthy pd); [|apply writes_only_keeps; auto with py].
        apply writes_only_bind; [apply writes_only_update_csv|].
        intros _. apply writes_only_keeps; auto with py. }
      apply writes_only_try_except;
        [|intros e; apply writes_only_keeps; auto with py].
      apply writes_only_bind;
        [apply writes_only_keeps, keeps_files_ET_fromstring | intros root].
      destruct (bool_decide _).
      * apply writes_only_bind;
          [apply writes_only_keeps, keeps_files_parse_lotto_xml | exact Hfinish].
      * destruct (bool_decide _); [|apply writes_only_keeps; auto with py].
        apply writes_only_bind; [|exact Hfinish].
        apply writes_only_try_except.
        -- apply writes_only_bind;
             [apply writes_only_keeps, keeps_files_ET_fromstring | intros root'].
           apply writes_only_bind; [|intros; apply writes_only_keeps; auto with py].
           apply writes_only_for_each. intros link.
           destruct (bool_decide _); [|apply writes_only_keeps; auto with py].
           apply writes_only_bind; [apply IH|].
           intros; apply writes_only_keeps; auto with py.
        -- intros []; apply writes_only_keeps; auto with py.
Qed.

(** X11. However deep it goes, [process_xml_link] changes no file but the
    one it is given, and to that one it only adds rows at the end. *)
Theorem process_xml_link_writes_only
    (w : world) (fuel : nat) (xml_link : option string)
    (csv_filename other : string) (s : state) (r : outcome (option Z))
    (s' : state) :
  process_xml_link w fuel xml_link csv_filename s = Some (r, s') ->
  other <> csv_filename ->
  files s' !! other = files s !! other
  /\ (files s !!! csv_filename) `prefix_of` (files s' !!! csv_filename).
Proof.
  intros H Hne. split.
  - exact (writes_only_process_xml_link w fuel xml_link csv_filename
             s r s' other H Hne).
  - destruct (appends_process_xml_link w fuel xml_link csv_filename s r s' H)
      as [_ Hfiles].
    apply Hfiles.
Qed.

Lemma process_xml_link_writes_only_witness :
  files
    (State [Request (Some "http://a")]
           (<[ "out.csv" :=
                [[CStr "Comune"; CStr "001"; CStr "Z1"; CStr "A"; CInt 0];
                 [CStr "Comune"; CStr "001"; CStr "Z1"; CStr "B"; CInt 1]] ]>
              {[ "status.csv" := [[CInt 0]] ]})
           [(INFO, Fetched (Some "http://a"));
            (INFO, Processed (Some "http://a"))])
    !! "status.csv"
  = Some [[CInt 0]].
Proof.
  assert (Hrun :
    process_xml_link (served [("http://a", lot_document [lotto_example])] 0) 1
      (Some "http://a") "out.csv"
      (State [] {[ "status.csv" := [[CInt 0]] ]} [])
    = Some (Return (Some 0),
            State [Request (Some "http://a")]
              (<[ "out.csv" :=
                   [[CStr "Comune"; CStr "001"; CStr "Z1"; CStr "A"; CInt 0];
                    [CStr "Comune"; CStr "001"; CStr "Z1"; CStr "B"; CInt 1]] ]>
                 {[ "status.csv" := [[CInt 0]] ]})
              [(INFO, Fetched (Some "http://a"));
               (INFO, Processed (Some "http://a"))]))
    by (vm_compute; reflexivity).
  assert (Hne : "status.csv" <> "out.csv") by discriminate.
  destruct (process_xml_link_writes_only _ _ _ _ _ _ _ _ Hrun Hne) as [Hother _].
  etransitivity; [exact Hother | reflexivity].
Defined.

(** X12. A dataset document whose links all lead back to itself, or that
    has no link, is done with once fetched: [process_xml_link] returns the
    code 0 without asking for anything more and without writing. *)
Theorem process_xml_link_self_links
    (w : world) (fuel : nat) (xml_link : option string) (csv_filename : string)
    (s : state) (xml_content : string) (s1 : state) (root : element) :
  make_request w xml_link s = Some (Return xml_content, s1) ->
  fromstring w xml_content = Some root ->
  find [Self; Descendant "lotto"] root = None ->
  find [Self; Descendant "dataset"] root <> None ->
  (forall link,
      link ∈ map text (findall [Self; Descendant "linkDataset"] root) ->
      link = xml_link) ->
  process_xml_link w (S fuel) xml_link csv_filename s
  = Some (Return (Some 0), s1).
Proof.
  intros Hreq Hroot Hlotto Hdataset Hself.
  rewrite (process_xml_link_expands w fuel xml_link csv_filename s xml_content
             s1 root Hreq Hroot Hlotto Hdataset).
  replace (filter (fun link => link <> xml_link)
             (map text (findall [Self; Descendant "linkDataset"] root)))
    with (@nil (option string)); [reflexivity|].
  induction (map text (findall [Self; Descendant "linkDataset"] root))
    as [|link links IH]; [reflexivity|].
  rewrite filter_cons. destruct (decide (link <> xml_link)) as [Hne|_].
  - exfalso. apply Hne, Hself. left.
  - apply IH. intros link' Hin. apply Hself. now right.
Qed.

Lemma process_xml_link_self_links_witness :
  process_xml_link
    (served [("http://index", dataset_document ["http://index"])] 0)
    1 (Some "http://index") "out.csv" start
  = Some (Return (Some 0),
          State [Request (Some "http://index")] ∅
                [(INFO, Fetched (Some "http://index"))]).
Proof.
  apply (process_xml_link_self_links
           (served [("http://index", dataset_document ["http://index"])] 0)
           0 (Some "http://index") "out.csv" start "http://index"
           (State [Request (Some "http://index")] ∅
                  [(INFO, Fetched (Some "http://index"))])
           (dataset_document ["http://index"]) eq_refl eq_refl eq_refl).
  - discriminate.
  - intros link Hin. vm_compute in Hin.
    now apply list_elem_of_singleton in Hin.
Defined.

(** ** [make_request] *)

Lemma attempt_cases w xml_link s :
  (exists response,
      (response <- get w xml_link ;;
       logging INFO (Fetched xml_link) ;;; ret response) s
      = Some (Return response,
              State (trace s ++ [Request xml_link]) (files s)
                    (log s ++ [(INFO, Fetched xml_link)])))
  \/ (exists e,
      (response <- get w xml_link ;;
       logging INFO (Fetched xml_link) ;;; ret response) s
      = Some (Raise e,
              State (trace s ++ [Request xml_link]) (files s) (log s))).
Proof.
  unfold bind, get, bind, record_event. simpl.
  destruct xml_link as [u|]; [|right; eauto].
  destruct (requests_get w (requests_made s) u) as [e|status_code response_text];
    [right; eauto|].
  destruct (_ && _); [right | left]; eauto.
Qed.

(** X13. Whatever the network does, [make_request] asks for the URL once,
    twice or three times, sleeps 1000 ms between two requests, and writes
    to no file; it logs the fetch when it returns a text and logs nothing
    when it raises. *)
Theorem make_request_at_most_three
    (w : world) (xml_link : option string) (s : state)
    (r : outcome string) (s' : state) :
  make_request w xml_link s = Some (r, s') ->
  (exists k, (1 <= k <= 3)%nat /\ trace s' = trace s ++ attempts k xml_link)
  /\ files s' = files s
  /\ log s' = log s ++ match r with
                       | Return _ => [(INFO, Fetched xml_link)]
                       | Raise _ => []
                       end.
Proof.
  rewrite make_request_unfold, call_unfold.
  destruct (attempt_cases w xml_link s) as [[t1 ->]|[e1 ->]].
  { intros [= <- <-]. simpl. split; [exists 1%nat; split; [lia | reflexivity]|].
    split; reflexivity. }
  destruct (stop _ _ _).
  { intros [= <- <-]. simpl. rewrite app_nil_r.
    split; [exists 1%nat; split; [lia | reflexivity]|]. split; reflexivity. }
  rewrite call_unfold.
  match goal with
  | |- context [bind (get w xml_link) _ ?s1] =>
      destruct (attempt_cases w xml_link s1) as [[t2 ->]|[e2 ->]]
  end.
  { intros [= <- <-]. simpl. rewrite <- !app_assoc.
    split; [exists 2%nat; split; [lia | reflexivity]|]. split; reflexivity. }
  destruct (stop _ _ _).
  { intros [= <- <-]. simpl. rewrite <- !app_assoc, app_nil_r.
    split; [exists 2%nat; split; [lia | reflexivity]|]. split; reflexivity. }
  rewrite call_unfold.
  match goal with
  | |- context [bind (get w xml_link) _ ?s1] =>
      destruct (attempt_cases w xml_link s1) as [[t3 ->]|[e3 ->]]
  end.
  { intros [= <- <-]. simpl. rewrite <- !app_assoc.
    split; [exists 3%nat; split; [lia | reflexivity]|]. split; reflexivity. }
  unfold stop. cbn [stop_max_attempt_number]. change (3 <=? 3)%nat with true.
  cbn [orb].
  intros [= <- <-]. simpl. rewrite <- !app_assoc, app_nil_r.
  split; [exists 3%nat; split; [lia | reflexivity]|]. split; reflexivity.
Qed.

Lemma make_request_at_most_three_witness :
  (exists k, (1 <= k <= 3)%nat
             /\ [Request (Some "http://slow")]
                = trace start ++ attempts k (Some "http://slow"))
  /\ files (State [Request (Some "http://slow")] ∅ []) = files start
  /\ log (State [Request (Some "http://slow")] ∅ []) = log start ++ [].
Proof.
  apply (make_request_at_most_three timing_out (Some "http://slow") start
           (Raise Timeout) (State [Request (Some "http://slow")] ∅ [])).
  vm_compute. reflexivity.
Defined.

(** X14. A failure that passes is made up for: when the first attempt is
    refused, the clock of the decorator then reads less than 5000 ms, and
    the second attempt is answered, [make_request] returns the text of the
    second answer after one sleep of 1000 ms. *)
Theorem make_request_second_attempt
    (w : world) (url : string) (s : state)
    (status_code : Z) (response_text : string) :
  refused w (requests_made s) (Some url) = true ->
  delay_since_first_attempt_ms w (S (requests_made s)) < 5000 ->
  requests_get w (S (requests_made s)) url = Reply status_code response_text ->
  (400 <=? status_code) && (status_code <? 600) = false ->
  make_request w (Some url) s
  = Some (Return response_text,
          State (trace s ++ [Request (Some url); Sleep 1000; Request (Some url)])
                (files s)
                (log s ++ [(INFO, Fetched (Some url))])).
Proof.
  intros Hrefused Hdelay Hreply Hstatus. rewrite make_request_unfold.
  destruct (call_refused w
              {| stop_max_attempt_number := 3; wait_fixed := 1000;
                 stop_max_delay := 5000 |} 2 1 (Some url) s Hrefused)
    as [e1 ->].
  unfold stop. cbn [stop_max_attempt_number stop_max_delay wait_fixed].
  change (3 <=? 1)%nat with false. cbn [orb].
  replace (5000 <=? _) with false by (symmetry; apply Z.leb_gt; exact Hdelay).
  rewrite call_unfold.
  unfold bind at 1. unfold get. unfold bind at 1. unfold record_event at 1.
  cbn [trace files log]. rewrite requests_made_sleep_request, Hreply, Hstatus.
  cbn. rewrite <- !app_assoc. reflexivity.
Qed.

Lemma make_request_second_attempt_witness :
  make_request
    (World (fun n url => if (n =? 0)%nat then NoReply ConnectionError
                         else Reply 200 "<lotti/>")
           (fun _ => 300) (fun _ => None))
    (Some "http://a") start
  = Some (Return "<lotti/>",
          State [Request (Some "http://a"); Sleep 1000; Request (Some "http://a")]
                ∅ [(INFO, Fetched (Some "http://a"))]).
Proof.
  apply (make_request_second_attempt
           (World (fun n url => if (n =? 0)%nat then NoReply ConnectionError
                                else Reply 200 "<lotti/>")
                  (fun _ => 300) (fun _ => None))
           "http://a" start 200 "<lotti/>"); reflexivity.
Defined.


(** ** Strings *)

Lemma lstrip_head s :
  match lstrip s with
  | EmptyString => True
  | String c _ => isspace c = false
  end.
Proof.
  induction s as [|c s IH]; simpl; [exact I|].
  destruct (isspace c) eqn:Hc; [exact IH | exact Hc].
Qed.

Lemma rstrip_last t c :
  last (list_ascii_of_string (rstrip t)) = Some c -> isspace c = false.
Proof.
  induction t as [|a t IH]; simpl; [discriminate|].
  destruct (rstrip t) as [|b r] eqn:Hr.
  - destruct (isspace a) eqn:Ha; simpl; [discriminate|]. now intros [= <-].
  - exact IH.
Qed.

Lemma rstrip_head a t :
  isspace a = false -> exists r, rstrip (String a t) = String a r.
Proof.
  intros Ha. simpl. destruct (rstrip t); [rewrite Ha|]; eauto.
Qed.

Lemma strip_is_trimmed s : trimmed (strip s).
Proof.
  unfold trimmed, strip. split.
  - pose proof (lstrip_head s) as Hhead.
    destruct (lstrip s) as [|a t]; [exact I|].
    destruct (rstrip_head a t Hhead) as [r ->]. exact Hhead.
  - destruct (last _) as [c|] eqn:Hlast; [|exact I].
    exact (rstrip_last _ _ Hlast).
Qed.

(** X15. [strip] leaves no white space at either end, and stripping twice
    is stripping once. *)
Theorem strip_trimmed (s : string) :
  trimmed (strip s) /\ strip (strip s) = strip s.
Proof.
  pose proof (strip_is_trimmed s) as Htrim.
  split; [exact Htrim|].
  assert (Hl : forall t, match t with
                         | EmptyString => True
                         | String c _ => isspace c = false
                         end -> lstrip t = t).
  { intros [|c t] Hc; [reflexivity|]. simpl. now rewrite Hc. }
  assert (Hr : forall t, rstrip (rstrip t) = rstrip t).
  { induction t as [|a t IH]; [reflexivity|]. simpl.
    destruct (rstrip t) as [|b r] eqn:Ht.
    - destruct (isspace a) eqn:Ha; [reflexivity|]. simpl. now rewrite Ha.
    - simpl in IH |- *. destruct (rstrip r) as [|b' r'] eqn:Hr'.
      + destruct (isspace b); [discriminate|]. now rewrite IH.
      + now rewrite IH. }
  unfold strip at 1. rewrite Hl.
  - apply Hr.
  - destruct Htrim as [Hhead _]. unfold strip in *.
    destruct (rstrip (lstrip s)); [exact I | exact Hhead].
Qed.

(** ** The driver *)

Lemma seed_inv comunicazione cf_ente name_ente url :
  seed comunicazione = Some (cf_ente, name_ente, url) ->
  exists cf name raw,
    cf_ente = strip cf
    /\ name_ente = match name with Some n => strip n | None => EmptyString end
    /\ url = (if startswith (strip raw) "http" then strip raw
              else "http://" +:+ strip raw).
Proof.
  unfold seed.
  destruct (find [Child "codiceFiscale"] comunicazione) as [[t1 [x1|] c1]|];
    try discriminate.
  destruct (find [Child "ragioneSociale"] comunicazione) as [e2|]; try discriminate.
  destruct (find [Child "url"] comunicazione) as [[t3 [x3|] c3]|];
    try discriminate.
  intros [= <- <- <-]. exists x1, (text e2), x3. repeat split.
Qed.

Lemma lookup_total_eq (m1 m2 : gmap string (list (list cell))) f :
  m1 !! f = m2 !! f -> m1 !!! f = m2 !!! f.
Proof. intros H. now rewrite !lookup_total_alt, H. Qed.

Lemma seed_shape comunicazione cf_ente name_ente url :
  seed comunicazione = Some (cf_ente, name_ente, url) ->
  startswith url "http" = true /\ trimmed cf_ente /\ trimmed name_ente.
Proof.
  intros H. apply seed_inv in H as (cf & name & raw & -> & -> & ->).
  split; [|split].
  - destruct (startswith (strip raw) "http") eqn:Hraw; [exact Hraw | reflexivity].
  - apply strip_is_trimmed.
  - destruct name as [n|]; [apply strip_is_trimmed | split; exact I].
Qed.

(** X16. In a run whose year is bound and whose status file is not the
    output file, when the loop of the driver comes back, every row it has
    added to the status file has a URL that begins with [http] and that
    [process_xml_link] has been asked to resolve, and a tax id and a name
    without white space at either end. *)
Theorem main_loop_rows_normalised
    (w : world) (fuel : nat) (year output_filename status_filename : string)
    (i : nat) (comunicazioni : list element) (s : state)
    (r : outcome unit) (s' : state) :
  output_filename <> status_filename ->
  main_loop w fuel (Some year) output_filename status_filename i comunicazioni s
  = Some (r, s') ->
  exists rows,
    files s' !!! status_filename = files s !!! status_filename ++ rows
    /\ Forall (fun row =>
         exists cf_ente name_ente url return_code,
           row = [CStr year; CStr cf_ente; CStr name_ente; CStr url; return_code]
           /\ startswith url "http" = true
           /\ trimmed cf_ente /\ trimmed name_ente
           /\ Request (Some url) ∈ trace s')
         rows.
Proof.
  intros Hne. revert i s. induction comunicazioni as [|c rest IH]; intros i s H.
  - inversion H; subst. exists []. rewrite app_nil_r. split; [reflexivity|].
    constructor.
  - destruct (seed c) as [[[cf_ente name_ente] url]|] eqn:Hseed.
    + rewrite (main_loop_seed _ _ _ _ _ _ _ _ _ _ _ _ Hseed) in H.
      apply bind_inv in H as [(e & H & _)|([] & s1 & Hlog & H)]; [discriminate|].
      inversion Hlog; subst s1. clear Hlog.
      apply bind_inv in H as [(e & H & _)|(code & s2 & Hplx & H)];
        [exfalso; exact (no_raise_process_xml_link _ _ _ _ _ _ _ H)|].
      rewrite bind_unfold in H. simpl in H.
      rewrite bind_unfold, update_status_csv_rows in H.
      destruct (IH _ _ H) as (rows & Hrows & Hshape).
      exists ([CStr year; CStr cf_ente; CStr name_ente; CStr url;
               match code with Some z => CInt z | None => CNone end] :: rows).
      split.
      * rewrite Hrows. unfold append_rows; simpl.
        rewrite lookup_total_insert_eq, <- app_assoc. simpl. f_equal.
        apply lookup_total_eq.
        rewrite (writes_only_process_xml_link _ _ _ _ _ _ _ status_filename Hplx)
          by congruence.
        reflexivity.
      * constructor; [|exact Hshape].
        destruct (seed_shape _ _ _ _ Hseed) as (Hhttp & Hcf & Hname).
        eexists _, _, _, _. split; [reflexivity|].
        split; [exact Hhttp|]. split; [exact Hcf|]. split; [exact Hname|].
        apply (extends_trace _ _ _ (appends_main_loop _ _ _ _ _ _ _ _ _ _ H)).
        simpl. exact (process_xml_link_requested _ _ _ _ _ _ _ Hplx).
    + rewrite (main_loop_no_seed _ _ _ _ _ _ _ _ _ Hseed) in H.
      destruct (IH _ _ H) as (rows & Hrows & Hshape).
      exists rows. split; [exact Hrows | exact Hshape].
Qed.

Lemma main_loop_rows_normalised_witness :
  match main_loop lots_and_index 2 (Some "2020") "out.csv" "status.csv" 0
          (findall [Child "comunicazione"] catalogue) start with
  | Some (_, s') =>
      exists rows,
        files s' !!! "status.csv" = files start !!! "status.csv" ++ rows
        /\ Forall (fun row =>
             exists cf_ente name_ente url return_code,
               row = [CStr "2020"; CStr cf_ente; CStr name_ente; CStr url;
                      return_code]
               /\ startswith url "http" = true
               /\ trimmed cf_ente /\ trimmed name_ente
               /\ Request (Some url) ∈ trace s')
             rows
  | None => False
  end.
Proof.
  destruct (main_loop lots_and_index 2 (Some "2020") "out.csv" "status.csv" 0
              (findall [Child "comunicazione"] catalogue) start)
    as [[r s']|] eqn:Hrun.
  - apply (main_loop_rows_normalised lots_and_index 2 "2020" "out.csv"
             "status.csv" 0 (findall [Child "comunicazione"] catalogue) start
             r s').
    + discriminate.
    + exact Hrun.
  - vm_compute in Hrun. discriminate.
Defined.

(** X17. In a run whose year is bound and whose status file is not the
    output file, when the loop of the driver comes back the status file has
    grown by exactly one row for each entry whose fields can be read, in
    the order of the catalogue; the row begins with the year, the tax id,
    the name and the URL of the entry. *)
Theorem main_loop_status_rows
    (w : world) (fuel : nat) (year output_filename status_filename : string)
    (i : nat) (comunicazioni : list element) (s : state)
    (r : outcome unit) (s' : state) :
  output_filename <> status_filename ->
  main_loop w fuel (Some year) output_filename status_filename i comunicazioni s
  = Some (r, s') ->
  exists rows,
    files s' !!! status_filename = files s !!! status_filename ++ rows
    /\ map (take 4) rows = map (status_cells year) (omap seed comunicazioni).
Proof.
  intros Hne. revert i s. induction comunicazioni as [|c rest IH]; intros i s H.
  - inversion H; subst. exists []. now rewrite app_nil_r.
  - destruct (seed c) as [[[cf_ente name_ente] url]|] eqn:Hseed.
    + rewrite (main_loop_seed _ _ _ _ _ _ _ _ _ _ _ _ Hseed) in H.
      apply bind_inv in H as [(e & H & _)|([] & s1 & Hlog & H)]; [discriminate|].
      inversion Hlog; subst s1. clear Hlog.
      apply bind_inv in H as [(e & H & _)|(code & s2 & Hplx & H)];
        [exfalso; exact (no_raise_process_xml_link _ _ _ _ _ _ _ H)|].
      rewrite bind_unfold in H. simpl in H.
      rewrite bind_unfold, update_status_csv_rows in H.
      destruct (IH _ _ H) as (rows & Hrows & Hcells).
      exists ([CStr year; CStr cf_ente; CStr name_ente; CStr url;
               match code with Some z => CInt z | None => CNone end] :: rows).
      split.
      * rewrite Hrows. unfold append_rows; simpl.
        rewrite lookup_total_insert_eq, <- app_assoc. simpl. f_equal.
        apply lookup_total_eq.
        rewrite (writes_only_process_xml_link _ _ _ _ _ _ _ status_filename Hplx)
          by congruence.
        reflexivity.
      * simpl. rewrite Hseed. simpl. now rewrite Hcells.
    + rewrite (main_loop_no_seed _ _ _ _ _ _ _ _ _ Hseed) in H.
      destruct (IH _ _ H) as (rows & Hrows & Hcells).
      exists rows. split; [exact Hrows|]. simpl. now rewrite Hseed.
Qed.

Lemma main_loop_status_rows_witness :
  match main_loop lots_and_index 2 (Some "2020") "out.csv" "status.csv" 0
          (findall [Child "comunicazione"] catalogue) start with
  | Some (_, s') =>
      exists rows,
        files s' !!! "status.csv" = files start !!! "status.csv" ++ rows
        /\ map (take 4) rows
           = [[CStr "2020"; CStr "001"; CStr EmptyString;
               CStr "http://down.example/l190.xml"];
              [CStr "2020"; CStr "002"; CStr EmptyString; CStr "http://lots"]]
  | None => False
  end.
Proof.
  destruct (main_loop lots_and_index 2 (Some "2020") "out.csv" "status.csv" 0
              (findall [Child "comunicazione"] catalogue) start)
    as [[r s']|] eqn:Hrun.
  - apply (main_loop_status_rows lots_and_index 2 "2020" "out.csv" "status.csv"
             0 (findall [Child "comunicazione"] catalogue) start r s').
    + discriminate.
    + exact Hrun.
  - vm_compute in Hrun. discriminate.
Defined.

Lemma main_loop_nothing_readable w fuel year output_filename status_filename
    comunicazioni :
  (forall c, c ∈ comunicazioni -> seed c = None) ->
  forall i s,
  exists s',
    main_loop w fuel year output_filename status_filename i comunicazioni s
    = Some (Return tt, s')
    /\ trace s' = trace s /\ files s' = files s
    /\ List.length (log s') = (List.length (log s) + List.length comunicazioni)%nat.
Proof.
  induction comunicazioni as [|c rest IH]; intros Hnone i s.
  - exists s. simpl. repeat split. lia.
  - rewrite (main_loop_no_seed _ _ _ _ _ _ _ _ _ (Hnone c ltac:(left))).
    destruct (IH (fun c' Hc' => Hnone c' ltac:(now right)) (S i)
                 (State (trace s) (files s) (log s ++ [(ERROR, ErrorComunicazione i)])))
      as (s' & Hrun & Htrace & Hfiles & Hlog).
    exists s'. split; [exact Hrun|]. split; [exact Htrace|]. split; [exact Hfiles|].
    rewrite Hlog. simpl. rewrite length_app. simpl. lia.
Qed.

(** X18. When no entry of the catalogue can be read (in particular when the
    catalogue is empty), the run ends without an exception whether or not
    the name of the input file carries the year: nothing is asked for, no
    file is written, and one error is logged per entry. *)
Theorem main_nothing_readable
    (w : world) (fuel : nat)
    (input_filename output_filename status_filename : string)
    (input_root : element) (s : state) :
  (forall c, c ∈ findall [Child "comunicazione"] input_root -> seed c = None) ->
  exists s',
    main w fuel input_filename output_filename status_filename input_root s
    = Some (Return tt, s')
    /\ trace s' = trace s /\ files s' = files s
    /\ List.length (log s')
       = (List.length (log s)
          + List.length (findall [Child "comunicazione"] input_root))%nat.
Proof.
  intros Hnone. unfold main. now apply main_loop_nothing_readable.
Qed.

Lemma main_nothing_readable_witness :
  exists s',
    main lots_and_index 1 "catalogue.xml" "out.csv" "status.csv"
      (Element "legge190" None
         [Element "comunicazione" None [leaf "codiceFiscale" "001"]])
      start
    = Some (Return tt, s')
    /\ trace s' = trace start /\ files s' = files start
    /\ List.length (log s') = (List.length (log start) + 1)%nat.
Proof.
  apply (main_nothing_readable lots_and_index 1 "catalogue.xml" "out.csv"
           "status.csv"
           (Element "legge190" None
              [Element "comunicazione" None [leaf "codiceFiscale" "001"]])
           start).
  intros c Hc. vm_compute in Hc. apply list_elem_of_singleton in Hc as ->.
  reflexivity.
Defined.

(** ** The year *)

Lemma prefix_app p s :
  String.prefix p s = true -> exists rest, s = p +:+ rest.
Proof.
  revert s. induction p as [|a p IH]; intros s H; [exists s; reflexivity|].
  destruct s as [|b s]; [discriminate|]. simpl in H.
  destruct (ascii_dec a b) as [->|]; [|discriminate].
  destruct (IH _ H) as [rest ->]. exists rest. reflexivity.
Qed.

Lemma prefix_append p s : String.prefix p (p +:+ s) = true.
Proof.
  apply String.prefix_correct.
  induction p as [|c p IH]; simpl; [destruct s; reflexivity | now rewrite IH].
Qed.

Lemma substring_all s : String.substring 0 (String.length s) s = s.
Proof. induction s as [|c s IH]; simpl; [reflexivity | now rewrite IH]. Qed.

Lemma match_year_sound s year :
  match_year s = Some year ->
  exists rest,
    s = "l190-" +:+ year +:+ ".xml" +:+ rest
    /\ String.length year = 4%nat /\ all_digits year = true.
Proof.
  unfold match_year. destruct (String.prefix "l190-" s) eqn:Hp; [|discriminate].
  apply prefix_app in Hp as [rest ->].
  replace (String.length ("l190-" +:+ rest) - 5)%nat with (String.length rest)
    by (change (String.length ("l190-" +:+ rest))
          with (5 + String.length rest)%nat; lia).
  change (String.substring 5 (String.length rest) ("l190-" +:+ rest))
    with (String.substring 0 (String.length rest) rest).
  rewrite substring_all.
  destruct rest as [|a [|b [|c [|d rest]]]]; try discriminate.
  destruct (isdigit a) eqn:Ha; [|discriminate].
  destruct (isdigit b) eqn:Hb; [|discriminate].
  destruct (isdigit c) eqn:Hc; [|discriminate].
  destruct (isdigit d) eqn:Hd; [|discriminate].
  simpl andb. destruct (String.prefix ".xml" rest) eqn:Hx; [|discriminate].
  apply prefix_app in Hx as [rest' ->].
  intros [= <-]. exists rest'. split; [reflexivity|]. split; [reflexivity|].
  unfold all_digits. simpl. now rewrite Ha, Hb, Hc, Hd.
Qed.

(** X19. The year that the driver takes from the name of the input file is
    made of four decimal digits, and stands in the name between [l190-] and
    [.xml]. *)
Theorem re_search_year_sound (input_filename year : string) :
  re_search_year input_filename = Some year ->
  exists before after,
    input_filename = before +:+ "l190-" +:+ year +:+ ".xml" +:+ after
    /\ String.length year = 4%nat /\ all_digits year = true.
Proof.
  induction input_filename as [|c s IH]; intros H.
  - vm_compute in H. discriminate.
  - cbn [re_search_year] in H.
    destruct (match_year (String c s)) as [y|] eqn:Hm.
    + injection H as <-.
      destruct (match_year_sound _ _ Hm) as (rest & Hs & Hlen & Hdigits).
      exists EmptyString, rest. auto.
    + destruct (IH H) as (before & after & -> & Hlen & Hdigits).
      exists (String c before), after. auto.
Qed.

Lemma re_search_year_sound_witness :
  exists before after,
    "data/l190-2019.xml"
    = before +:+ "l190-" +:+ "2019" +:+ ".xml" +:+ after
    /\ String.length "2019" = 4%nat /\ all_digits "2019" = true.
Proof.
  apply (re_search_year_sound "data/l190-2019.xml" "2019"). reflexivity.
Defined.

(** X20. When the name of the input file holds [l190-], four decimal digits
    and [.xml] in a row, the year is bound; it is bound to those four
    digits when the name begins with them. *)
Theorem re_search_year_complete (before year after : string) :
  String.length year = 4%nat ->
  all_digits year = true ->
  (exists found,
      re_search_year (before +:+ "l190-" +:+ year +:+ ".xml" +:+ after)
      = Some found)
  /\ re_search_year ("l190-" +:+ year +:+ ".xml" +:+ after) = Some year.
Proof.
  intros Hlen Hdigits.
  assert (Hhere : match_year ("l190-" +:+ year +:+ ".xml" +:+ after) = Some year).
  { destruct year as [|a [|b [|c [|d [|]]]]]; try discriminate.
    unfold all_digits in Hdigits. simpl in Hdigits.
    apply andb_true_iff in Hdigits as [Ha Hdigits].
    apply andb_true_iff in Hdigits as [Hb Hdigits].
    apply andb_true_iff in Hdigits as [Hc Hdigits].
    apply andb_true_iff in Hdigits as [Hd _].
    unfold match_year.
    change (String.prefix "l190-" _) with true. cbv iota.
    replace (String.length
               ("l190-" +:+ String a (String b (String c (String d EmptyString)))
                +:+ ".xml" +:+ after) - 5)%nat
      with (String.length
              (String a (String b (String c (String d (".xml" +:+ after))))))
      by (change (String.length
                    ("l190-" +:+ String a (String b (String c (String d EmptyString)))
                     +:+ ".xml" +:+ after))
            with (5 + String.length
                        (String a (String b (String c (String d (".xml" +:+ after))))))%nat;
          lia).
    change (String.substring 5 ?n _)
      with (String.substring 0 n
              (String a (String b (String c (String d (".xml" +:+ after)))))).
    rewrite substring_all, Ha, Hb, Hc, Hd, (prefix_append ".xml" after).
    reflexivity. }
  assert (Hfirst : re_search_year ("l190-" +:+ year +:+ ".xml" +:+ after) = Some year).
  { change ("l190-" +:+ year +:+ ".xml" +:+ after)
      with (String "l" ("190-" +:+ year +:+ ".xml" +:+ after)) in *.
    cbn [re_search_year]. now rewrite Hhere. }
  split; [|exact Hfirst].
  induction before as [|c before IH]; [eauto|].
  change (String c before +:+ "l190-" +:+ year +:+ ".xml" +:+ after)
    with (String c (before +:+ "l190-" +:+ year +:+ ".xml" +:+ after)).
  cbn [re_search_year]. clear Hhere Hfirst.
  destruct (match_year (String c _)); eauto.
Qed.

Lemma re_search_year_complete_witness :
  (exists found,
      re_search_year ("anac/" +:+ "l190-" +:+ "2021" +:+ ".xml" +:+ ".bak")
      = Some found)
  /\ re_search_year ("l190-" +:+ "2021" +:+ ".xml" +:+ ".bak") = Some "2021".
Proof.
  apply (re_search_year_complete "anac/" "2021" ".bak"); reflexivity.
Defined.

(** ** [check_files_existence] *)

Lemma lower_char_y c :
  Startup.lower_char c = "y"%char -> c = "y"%char \/ c = "Y"%char.
Proof.
  destruct c as [[] [] [] [] [] [] [] []]; vm_compute; intros H;
    solve [auto | discriminate].
Qed.

Lemma lower_lower_char c :
  Startup.lower_char (Startup.lower_char c) = Startup.lower_char c.
Proof. destruct c as [[] [] [] [] [] [] [] []]; reflexivity. Qed.

(** The test that the function makes on what has been typed holds for the
    empty answer, for [y] and for [Y], and for nothing else. *)
Lemma confirms_iff typed :
  String.eqb (Startup.lower typed) EmptyString
  || String.eqb (Startup.lower (Startup.lower typed)) "y" = true
  <-> typed = EmptyString \/ typed = "y" \/ typed = "Y".
Proof.
  split.
  - intros H. apply orb_true_iff in H as [H|H].
    + apply String.eqb_eq in H. destruct typed; [auto | discriminate].
    + apply String.eqb_eq in H.
      destruct typed as [|c [|c' rest]]; try discriminate.
      simpl in H. injection H as H. rewrite lower_lower_char in H.
      apply lower_char_y in H as [->| ->]; auto.
  - intros [->|[->| ->]]; reflexivity.
Qed.

Lemma remove_each_missing l (fs : gmap string (list (list cell))) file :
  file ∈ l -> fs !! file = None -> (Startup.remove_each l fs).1 = false.
Proof.
  revert fs. induction l as [|g l IH]; intros fs Hin Hnone.
  - apply elem_of_nil in Hin. contradiction.
  - simpl. unfold Startup.exists_.
    destruct (bool_decide (is_Some (fs !! g))) eqn:Hg; [|reflexivity].
    apply elem_of_cons in Hin as [->|Hin].
    + apply bool_decide_eq_true_1 in Hg as [x Hx]. congruence.
    + apply IH; [exact Hin|].
      destruct (decide (g = file)) as [->|Hne].
      * apply lookup_delete_eq.
      * rewrite lookup_delete_ne by exact Hne. exact Hnone.
Qed.

Lemma remove_each_repeated l (fs : gmap string (list (list cell))) :
  ~ NoDup l -> (Startup.remove_each l fs).1 = false.
Proof.
  revert fs. induction l as [|g l IH]; intros fs Hdup.
  - exfalso. apply Hdup. constructor.
  - simpl. destruct (Startup.exists_ fs g); [|reflexivity].
    destruct (decide (g ∈ l)) as [Hin|Hnotin].
    + apply (remove_each_missing l _ g Hin). apply lookup_delete_eq.
    + apply IH. intros Hnodup. apply Hdup. now constructor.
Qed.

Lemma remove_each_distinct l (fs : gmap string (list (list cell))) :
  NoDup l -> (forall file, file ∈ l -> is_Some (fs !! file)) ->
  exists fs',
    Startup.remove_each l fs = (true, fs')
    /\ forall file,
         fs' !! file = if bool_decide (file ∈ l) then None else fs !! file.
Proof.
  revert fs. induction l as [|g l IH]; intros fs Hnodup Hall.
  - exists fs. split; [reflexivity|]. intros file.
    rewrite bool_decide_eq_false_2; [reflexivity | apply not_elem_of_nil].
  - apply NoDup_cons in Hnodup as [Hnotin Hnodup]. simpl.
    unfold Startup.exists_.
    rewrite bool_decide_eq_true_2 by (apply Hall; left).
    destruct (IH (delete g fs) Hnodup) as (fs' & Hrun & Hlookup).
    { intros file Hin. rewrite lookup_delete_ne; [apply Hall; now right|].
      intros ->. contradiction. }
    exists fs'. split; [exact Hrun|]. intros file. rewrite Hlookup.
    destruct (decide (file = g)) as [->|Hne].
    + rewrite (bool_decide_eq_false_2 _ Hnotin).
      rewrite (bool_decide_eq_true_2 (g ∈ g :: l)) by left.
      apply lookup_delete_eq.
    + rewrite lookup_delete_ne by congruence.
      destruct (decide (file ∈ l)) as [Hin|Hout].
      * rewrite !bool_decide_eq_true_2; [reflexivity | now right | exact Hin].
      * rewrite !bool_decide_eq_false_2; [reflexivity | | exact Hout].
        intros Hin. apply elem_of_cons in Hin as [?|?]; contradiction.
Qed.

(** X21. When none of the three files to be written exists, the function
    returns [True] at once: nothing is printed, nothing is asked, no file is
    touched. *)
Theorem check_files_existence_nothing_there
    (args : Startup.Namespace) (typed : string)
    (fs : gmap string (list (list cell))) :
  fs !! Startup.output_filename args = None ->
  fs !! Startup.status_filename args = None ->
  fs !! Startup.log_file_path args = None ->
  Startup.check_files_existence args typed fs = (Startup.Returned true, fs, []).
Proof.
  intros Ho Hs Hl. unfold Startup.check_files_existence. simpl.
  unfold Startup.exists_. rewrite Ho, Hs, Hl.
  rewrite !bool_decide_eq_false_2 by (intros [x Hx]; discriminate).
  reflexivity.
Qed.

Lemma check_files_existence_nothing_there_witness :
  Startup.check_files_existence
    {| Startup.input_filename := "l190-2020.xml";
       Startup.output_filename := "out.csv";
       Startup.status_filename := "status.csv";
       Startup.log_file_path := "run.log" |}
    "n" {[ "l190-2020.xml" := [] ]}
  = (Startup.Returned true, {[ "l190-2020.xml" := [] ]}, []).
Proof.
  apply (check_files_existence_nothing_there
           {| Startup.input_filename := "l190-2020.xml";
              Startup.output_filename := "out.csv";
              Startup.status_filename := "status.csv";
              Startup.log_file_path := "run.log" |}
           "n" {[ "l190-2020.xml" := [] ]}); reflexivity.
Defined.

(** X22. When one of the three files exists and the operator types anything
    but nothing, [y] or [Y], the function returns [False] and removes no
    file. *)
Theorem check_files_existence_declined
    (args : Startup.Namespace) (typed : string)
    (fs : gmap string (list (list cell))) :
  is_Some (fs !! Startup.output_filename args)
  \/ is_Some (fs !! Startup.status_filename args)
  \/ is_Some (fs !! Startup.log_file_path args) ->
  typed <> EmptyString -> typed <> "y" -> typed <> "Y" ->
  exists shown,
    Startup.check_files_existence args typed fs
    = (Startup.Returned false, fs, shown ++ [Startup.Printed "Execution canceled."]).
Proof.
  intros Hsome H1 H2 H3. unfold Startup.check_files_existence.
  destruct (List.filter (Startup.exists_ fs) _) as [|file rest] eqn:Hexisting.
  - exfalso. unfold Startup.exists_ in Hexisting. simpl in Hexisting.
    destruct Hsome as [H|[H|H]]; rewrite (bool_decide_eq_true_2 _ H) in Hexisting;
      repeat destruct (bool_decide _); discriminate.
  - destruct (_ || _) eqn:Hconfirms.
    + apply confirms_iff in Hconfirms as [?|[?|?]]; contradiction.
    + eexists. reflexivity.
Qed.

Lemma check_files_existence_declined_witness :
  exists shown,
    Startup.check_files_existence
      {| Startup.input_filename := "l190-2020.xml";
         Startup.output_filename := "out.csv";
         Startup.status_filename := "status.csv";
         Startup.log_file_path := "run.log" |}
      "no" {[ "out.csv" := [] ]}
    = (Startup.Returned false, {[ "out.csv" := [] ]},
       shown ++ [Startup.Printed "Execution canceled."]).
Proof.
  apply (check_files_existence_declined
           {| Startup.input_filename := "l190-2020.xml";
              Startup.output_filename := "out.csv";
              Startup.status_filename := "status.csv";
              Startup.log_file_path := "run.log" |}
           "no" {[ "out.csv" := [] ]}); try discriminate.
  left. eexists. reflexivity.
Defined.

(** X23. When the three paths name three different files, one of them
    exists, and the operator types nothing, [y] or [Y], the function returns
    [True]; afterwards none of the three files exists and every other file
    is as it was.  (A file is what a key of the map of files stands for:
    two paths that name one file are one key.) *)
Theorem check_files_existence_confirmed
    (args : Startup.Namespace) (typed : string)
    (fs : gmap string (list (list cell))) :
  NoDup [Startup.output_filename args; Startup.status_filename args;
         Startup.log_file_path args] ->
  is_Some (fs !! Startup.output_filename args)
  \/ is_Some (fs !! Startup.status_filename args)
  \/ is_Some (fs !! Startup.log_file_path args) ->
  typed = EmptyString \/ typed = "y" \/ typed = "Y" ->
  exists fs' shown,
    Startup.check_files_existence args typed fs = (Startup.Returned true, fs', shown)
    /\ forall file,
         fs' !! file
         = if bool_decide (file ∈ [Startup.output_filename args;
                                   Startup.status_filename args;
                                   Startup.log_file_path args])
           then None else fs !! file.
Proof.
  intros Hnodup Hsome Htyped. unfold Startup.check_files_existence.
  set (file_paths := [Startup.output_filename args; Startup.status_filename args;
                      Startup.log_file_path args]) in *.
  assert (Hexisting : forall file,
    file ∈ List.filter (Startup.exists_ fs) file_paths
    <-> file ∈ file_paths /\ is_Some (fs !! file)).
  { intros file. rewrite !list_elem_of_In, filter_In.
    unfold Startup.exists_. rewrite bool_decide_eq_true. reflexivity. }
  assert (Hnodup' : NoDup (List.filter (Startup.exists_ fs) file_paths)).
  { apply NoDup_ListNoDup, List.NoDup_filter, NoDup_ListNoDup, Hnodup. }
  destruct (remove_each_distinct _ fs Hnodup') as (fs' & Hrun & Hlookup).
  { intros file Hin. now apply Hexisting in Hin. }
  destruct (List.filter (Startup.exists_ fs) file_paths) as [|file rest] eqn:Hfilter.
  - exfalso. destruct Hsome as [H|[H|H]].
    + apply (not_elem_of_nil (Startup.output_filename args)), Hexisting.
      split; [left | exact H].
    + apply (not_elem_of_nil (Startup.status_filename args)), Hexisting.
      split; [right; left | exact H].
    + apply (not_elem_of_nil (Startup.log_file_path args)), Hexisting.
      split; [right; right; left | exact H].
  - rewrite (proj2 (confirms_iff typed) Htyped), Hrun.
    eexists _, _. split; [reflexivity|].
    intros g. rewrite Hlookup.
    destruct (decide (g ∈ file :: rest)) as [Hin|Hout].
    + rewrite bool_decide_eq_true_2 by exact Hin.
      apply Hexisting in Hin as [Hin _].
      now rewrite bool_decide_eq_true_2 by exact Hin.
    + rewrite bool_decide_eq_false_2 by exact Hout.
      destruct (decide (g ∈ file_paths)) as [Hin|Hnot].
      * rewrite bool_decide_eq_true_2 by exact Hin.
        destruct (fs !! g) as [x|] eqn:Hg; [|reflexivity].
        exfalso. apply Hout, Hexisting. split; [exact Hin | eauto].
      * now rewrite bool_decide_eq_false_2 by exact Hnot.
Qed.

Lemma check_files_existence_confirmed_witness :
  exists fs' shown,
    Startup.check_files_existence
      {| Startup.input_filename := "l190-2020.xml";
         Startup.output_filename := "out.csv";
         Startup.status_filename := "status.csv";
         Startup.log_file_path := "run.log" |}
      "Y" {[ "out.csv" := [[CInt 1]]; "l190-2020.xml" := [] ]}
    = (Startup.Returned true, fs', shown)
    /\ forall file,
         fs' !! file
         = if bool_decide (file ∈ ["out.csv"; "status.csv"; "run.log"])
           then None
           else ({[ "out.csv" := [[CInt 1]]; "l190-2020.xml" := [] ]}
                   : gmap string (list (list cell))) !! file.
Proof.
  apply (check_files_existence_confirmed
           {| Startup.input_filename := "l190-2020.xml";
              Startup.output_filename := "out.csv";
              Startup.status_filename := "status.csv";
              Startup.log_file_path := "run.log" |}
           "Y" {[ "out.csv" := [[CInt 1]]; "l190-2020.xml" := [] ]}).
  - apply NoDup_ListNoDup. repeat constructor; simpl; intuition discriminate.
  - left. eexists. reflexivity.
  - right. right. reflexivity.
Defined.

(** X24. When one path is given for two of the three files, the file
    exists, and the operator confirms, the second [os.remove] of the path
    raises [FileNotFoundError]: the function does not return. *)
Theorem check_files_existence_same_path
    (args : Startup.Namespace) (typed : string)
    (fs : gmap string (list (list cell))) :
  (Startup.output_filename args = Startup.status_filename args
   /\ is_Some (fs !! Startup.output_filename args))
  \/ (Startup.output_filename args = Startup.log_file_path args
      /\ is_Some (fs !! Startup.output_filename args))
  \/ (Startup.status_filename args = Startup.log_file_path args
      /\ is_Some (fs !! Startup.status_filename args)) ->
  typed = EmptyString \/ typed = "y" \/ typed = "Y" ->
  (Startup.check_files_existence args typed fs).1.1 = Startup.FileNotFoundError.
Proof.
  intros Hsame Htyped. unfold Startup.check_files_existence.
  set (existing_files := List.filter (Startup.exists_ fs) _).
  assert (Hdup : ~ NoDup existing_files).
  { subst existing_files. unfold Startup.exists_. simpl.
    destruct Hsame as [[Heq H]|[[Heq H]|[Heq H]]].
    - rewrite <- Heq, (bool_decide_eq_true_2 _ H).
      intros Hnodup. apply NoDup_cons in Hnodup as [Hnotin _].
      apply Hnotin. left.
    - rewrite <- Heq, (bool_decide_eq_true_2 _ H).
      destruct (bool_decide _); intros Hnodup.
      + apply NoDup_cons in Hnodup as [Hnotin _]. apply Hnotin. right. left.
      + apply NoDup_cons in Hnodup as [Hnotin _]. apply Hnotin. left.
    - rewrite <- Heq, (bool_decide_eq_true_2 _ H).
      destruct (bool_decide _); intros Hnodup.
      + apply NoDup_cons in Hnodup as [_ Hnodup].
        apply NoDup_cons in Hnodup as [Hnotin _]. apply Hnotin. left.
      + apply NoDup_cons in Hnodup as [Hnotin _]. apply Hnotin. left. }
  pose proof (remove_each_repeated existing_files fs Hdup) as Hfail.
  destruct existing_files as [|file rest]; [exfalso; apply Hdup; constructor|].
  rewrite (proj2 (confirms_iff typed) Htyped).
  destruct (Startup.remove_each (file :: rest) fs) as [[] fs'];
    [discriminate | reflexivity].
Qed.

Lemma check_files_existence_same_path_witness :
  (Startup.check_files_existence
     {| Startup.input_filename := "l190-2020.xml";
        Startup.output_filename := "out.csv";
        Startup.status_filename := "out.csv";
        Startup.log_file_path := "run.log" |}
     EmptyString {[ "out.csv" := [[CInt 1]] ]}).1.1
  = Startup.FileNotFoundError.
Proof.
  apply (check_files_existence_same_path
           {| Startup.input_filename := "l190-2020.xml";
              Startup.output_filename := "out.csv";
              Startup.status_filename := "out.csv";
              Startup.log_file_path := "run.log" |}
           EmptyString {[ "out.csv" := [[CInt 1]] ]}).
  - left. split; [reflexivity | eexists; reflexivity].
  - left. reflexivity.
Defined.

(** ** Documents that list each other *)

Lemma for_each_never_returns {A} (l : list A) (body : A -> M unit) x :
  x ∈ l -> (forall y, no_raise (body y)) -> (forall s, body x s = None) ->
  forall s, for_each l body s = None.
Proof.
  intros Hin Hsafe Hx. induction l as [|y l IH]; intros s.
  - apply elem_of_nil in Hin. contradiction.
  - simpl. rewrite bind_unfold.
    apply elem_of_cons in Hin as [<-|Hin]; [now rewrite Hx|].
    destruct (body y s) as [[[[]|e] s1]|] eqn:Hy; [now apply IH | | reflexivity].
    exfalso. exact (Hsafe _ _ _ _ Hy).
Qed.

(** X25. Only a link to the document itself is skipped.  When two dataset
    documents, each always served as it is, list each other, the calls of
    [process_xml_link] started on either of them nest deeper than any
    depth: whatever the fuel, which bounds the depth of the nesting, it is
    used up before the crawl is over.  (What the interpreter does once its
    own limit on the depth is reached is outside the model.) *)
Theorem process_xml_link_two_step_cycle
    (w : world) (p d : string) (text_p text_d : string)
    (status_p status_d : Z) (root_p root_d : element)
    (fuel : nat) (csv_filename : string) (s : state) :
  p <> d ->
  (forall n, requests_get w n p = Reply status_p text_p) ->
  (forall n, requests_get w n d = Reply status_d text_d) ->
  (400 <=? status_p) && (status_p <? 600) = false ->
  (400 <=? status_d) && (status_d <? 600) = false ->
  fromstring w text_p = Some root_p ->
  fromstring w text_d = Some root_d ->
  find [Self; Descendant "lotto"] root_p = None ->
  find [Self; Descendant "lotto"] root_d = None ->
  find [Self; Descendant "dataset"] root_p <> None ->
  find [Self; Descendant "dataset"] root_d <> None ->
  Some d ∈ map text (findall [Self; Descendant "linkDataset"] root_p) ->
  Some p ∈ map text (findall [Self; Descendant "linkDataset"] root_d) ->
  process_xml_link w fuel (Some p) csv_filename s = None
  /\ process_xml_link w fuel (Some d) csv_filename s = None.
Proof.
  intros Hne Hp Hd Hsp Hsd Hrp Hrd Hlp Hld Hdp Hdd Hpd Hdp'.
  revert s. induction fuel as [|fuel IH]; intros s; [split; reflexivity|].
  assert (Hstep : forall u v text_u status_u root_u,
    (forall n, requests_get w n u = Reply status_u text_u) ->
    (400 <=? status_u) && (status_u <? 600) = false ->
    fromstring w text_u = Some root_u ->
    find [Self; Descendant "lotto"] root_u = None ->
    find [Self; Descendant "dataset"] root_u <> None ->
    Some v ∈ map text (findall [Self; Descendant "linkDataset"] root_u) ->
    u <> v ->
    (forall s, process_xml_link w fuel (Some v) csv_filename s = None) ->
    process_xml_link w (S fuel) (Some u) csv_filename s = None).
  { intros u v text_u status_u root_u Hu Hsu Hru Hlu Hdu Huv Huv_ne Hv.
    rewrite (process_xml_link_expands w fuel (Some u) csv_filename s text_u _
               root_u (make_request_answered w u status_u text_u s (Hu _) Hsu)
               Hru Hlu Hdu).
    rewrite bind_unfold.
    rewrite (for_each_never_returns _ _ (Some v)); [reflexivity | | |].
    - apply list_elem_of_filter. split; [congruence | exact Huv].
    - intros link.
      apply no_raise_bind; [apply no_raise_process_xml_link | auto with py].
    - intros s1. now rewrite bind_unfold, Hv. }
  split.
  - apply (Hstep p d text_p status_p root_p); auto.
    intros s1. apply IH.
  - apply (Hstep d p text_d status_d root_d); auto.
    intros s1. apply IH.
Qed.

Lemma process_xml_link_two_step_cycle_witness :
  process_xml_link mutual_links 7 (Some "http://p") "out.csv" start = None
  /\ process_xml_link mutual_links 7 (Some "http://d") "out.csv" start = None.
Proof.
  apply (process_xml_link_two_step_cycle mutual_links "http://p" "http://d"
           "http://p" "http://d" 200 200
           (dataset_document ["http://d"]) (dataset_document ["http://p"])
           7 "out.csv" start);
    try reflexivity; try discriminate.
  - vm_compute. apply list_elem_of_here.
  - vm_compute. apply list_elem_of_here.
Defined.

(** ** All the lots or none *)

Lemma lacks_mandatory_field_dec lotto :
  {lacks_mandatory_field lotto} + {~ lacks_mandatory_field lotto}.
Proof.
  unfold lacks_mandatory_field.
  destruct (find [Self; Child "strutturaProponente"; Child "denominazione"] lotto);
    [|left; auto].
  destruct (find [Self; Child "strutturaProponente"; Child "codiceFiscaleProp"] lotto);
    [|left; auto].
  destruct (find [Self; Child "cig"] lotto); [|left; auto].
  right. intros [H|[H|H]]; discriminate.
Qed.

(** X26. On a well-formed document [parse_lotto_xml] either returns the
    tuples of all the lots or raises [AttributeError], and it raises exactly
    when some [lotto] lacks a mandatory field; in both cases the state is
    left as it was. *)
Theorem parse_lotto_xml_all_or_nothing
    (w : world) (xml_content : string) (root : element) (s : state) :
  fromstring w xml_content = Some root ->
  (parse_lotto_xml w xml_content s = Some (Raise AttributeError, s)
   <-> exists lotto,
         lotto ∈ findall [Self; Descendant "lotto"] root
         /\ lacks_mandatory_field lotto)
  /\ (parse_lotto_xml w xml_content s
      = Some (Return (Some (map record_of
                              (findall [Self; Descendant "lotto"] root))), s)
      <-> forall lotto,
            lotto ∈ findall [Self; Descendant "lotto"] root ->
            ~ lacks_mandatory_field lotto).
Proof.
  intros Hroot.
  assert (Hcases :
    (exists lotto, lotto ∈ findall [Self; Descendant "lotto"] root
                   /\ lacks_mandatory_field lotto)
    \/ (forall lotto, lotto ∈ findall [Self; Descendant "lotto"] root ->
          ~ lacks_mandatory_field lotto)).
  { induction (findall [Self; Descendant "lotto"] root) as [|lotto lotti IH].
    - right. intros lotto Hin. apply elem_of_nil in Hin. contradiction.
    - destruct (lacks_mandatory_field_dec lotto) as [Hl|Hl].
      + left. exists lotto. split; [left | exact Hl].
      + destruct IH as [(l & Hin & Hlacks)|Hnone].
        * left. exists l. split; [now right | exact Hlacks].
        * right. intros l Hin. apply elem_of_cons in Hin as [->|Hin]; auto. }
  split; split.
  - intros Hraise. destruct Hcases as [Hex|Hnone]; [exact Hex|].
    rewrite (parse_lotto_xml_complete_loop w _ _ s Hroot Hnone) in Hraise.
    discriminate.
  - intros (lotto & Hin & Hlacks).
    exact (parse_lotto_xml_missing w _ _ _ _ Hroot Hin Hlacks).
  - intros Hret lotto Hin Hlacks.
    rewrite (parse_lotto_xml_missing w _ _ _ _ Hroot Hin Hlacks) in Hret.
    discriminate.
  - intros Hnone. exact (parse_lotto_xml_complete_loop w _ _ s Hroot Hnone).
Qed.

Lemma parse_lotto_xml_all_or_nothing_witness :
  parse_lotto_xml
    (served [("http://a", lot_document [lotto_without_cig; lotto_example])] 0)
    "http://a" start
  = Some (Raise AttributeError, start).
Proof.
  apply (proj1 (parse_lotto_xml_all_or_nothing
           (served [("http://a", lot_document [lotto_without_cig; lotto_example])] 0)
           "http://a" (lot_document [lotto_without_cig; lotto_example]) start
           eq_refl)).
  exists lotto_without_cig. split.
  - vm_compute. apply list_elem_of_here.
  - right. right. reflexivity.
Defined.

(** ** After a failure *)

Lemma for_each_app {A} (l1 l2 : list A) (body : A -> M unit) s :
  for_each (l1 ++ l2) body s = (for_each l1 body ;;; for_each l2 body) s.
Proof.
  revert s. induction l1 as [|x l1 IH]; intros s; [reflexivity|].
  simpl. rewrite !bind_unfold.
  destruct (body x s) as [[[[]|e] s1]|]; [|reflexivity|reflexivity].
  rewrite IH, bind_unfold. reflexivity.
Qed.

(** X27. Whatever one link of a dataset document comes to, the links after
    it are resolved all the same.  When the links before it have been
    resolved and the call of [process_xml_link] on it has ended, with the
    code 1 of a failed fetch, the code 2 of a failed processing or any
    other, the expansion of the document is the resolution of the links
    after it, from the state that call left, followed by the code 0. *)
Theorem process_xml_link_dataset_goes_on
    (w : world) (fuel : nat) (xml_link : option string) (csv_filename : string)
    (s : state) (xml_content : string) (s1 : state) (root : element)
    (before after : list (option string)) (link : option string)
    (s2 : state) (r : outcome (option Z)) (s3 : state) :
  make_request w xml_link s = Some (Return xml_content, s1) ->
  fromstring w xml_content = Some root ->
  find [Self; Descendant "lotto"] root = None ->
  find [Self; Descendant "dataset"] root <> None ->
  map text (findall [Self; Descendant "linkDataset"] root)
  = before ++ link :: after ->
  link <> xml_link ->
  for_each (filter (fun l => l <> xml_link) before)
    (fun l => _ <- process_xml_link w fuel l csv_filename ;; ret tt) s1
  = Some (Return tt, s2) ->
  process_xml_link w fuel link csv_filename s2 = Some (r, s3) ->
  (exists code, r = Return code)
  /\ process_xml_link w (S fuel) xml_link csv_filename s
     = (for_each (filter (fun l => l <> xml_link) after)
          (fun l => _ <- process_xml_link w fuel l csv_filename ;; ret tt) ;;;
        ret (Some 0)) s3.
Proof.
  intros Hreq Hroot Hlotto Hdataset Hlinks Hne Hbefore Hlink.
  assert (Hcode : exists code, r = Return code).
  { destruct r as [code|e]; [eauto|].
    exfalso. exact (no_raise_process_xml_link _ _ _ _ _ _ _ Hlink). }
  split; [exact Hcode|]. destruct Hcode as [code ->].
  rewrite (process_xml_link_expands w fuel xml_link csv_filename s xml_content
             s1 root Hreq Hroot Hlotto Hdataset).
  rewrite Hlinks, filter_app, filter_cons.
  destruct (decide (link <> xml_link)) as [_|Hcontra]; [|contradiction].
  rewrite !bind_unfold, for_each_app, bind_unfold, Hbefore.
  cbn [for_each]. rewrite !bind_unfold, Hlink. reflexivity.
Qed.

Lemma process_xml_link_dataset_goes_on_witness :
  process_xml_link lots_and_index 2 (Some "http://index") "out.csv" start
  = (for_each (filter (fun l => l <> Some "http://index") [Some "http://lots"])
       (fun l => _ <- process_xml_link lots_and_index 1 l "out.csv" ;; ret tt) ;;;
     ret (Some 0))
      (State [Request (Some "http://index"); Request (Some "http://down");
              Sleep 1000; Request (Some "http://down"); Sleep 1000;
              Request (Some "http://down")]
             ∅
             [(INFO, Fetched (Some "http://index"));
              (ERROR, ErrorAccessing (Some "http://down"))]).
Proof.
  assert (Hlink :
    process_xml_link lots_and_index 1 (Some "http://down") "out.csv"
      (State [Request (Some "http://index")] ∅
             [(INFO, Fetched (Some "http://index"))])
    = Some (Return (Some 1),
            State [Request (Some "http://index"); Request (Some "http://down");
                   Sleep 1000; Request (Some "http://down"); Sleep 1000;
                   Request (Some "http://down")]
                  ∅
                  [(INFO, Fetched (Some "http://index"));
                   (ERROR, ErrorAccessing (Some "http://down"))]))
    by (vm_compute; reflexivity).
  refine (proj2 (process_xml_link_dataset_goes_on lots_and_index 1
                   (Some "http://index") "out.csv" start "http://index"
                   (State [Request (Some "http://index")] ∅
                          [(INFO, Fetched (Some "http://index"))])
                   (dataset_document ["http://down"; "http://lots"])
                   [] [Some "http://lots"] (Some "http://down")
                   (State [Request (Some "http://index")] ∅
                          [(INFO, Fetched (Some "http://index"))])
                   (Return (Some 1)) _ eq_refl eq_refl eq_refl _ eq_refl _
                   eq_refl Hlink)); discriminate.
Defined.

(** X28. In a run whose year is bound, whatever the resolution of the URL
    of an entry comes to, the driver goes on with the entries after it.
    When the call of [process_xml_link] on the URL has ended, with the code
    1 of a failed fetch, the code 2 of a failed processing or any other,
    the loop on the entry and those after it is the loop on those after it,
    from the state that call left with the row of the entry added to the
    status file. *)
Theorem main_loop_goes_on
    (w : world) (fuel : nat) (year output_filename status_filename : string)
    (i : nat) (comunicazione : element) (rest : list element)
    (cf_ente name_ente url : string) (s : state)
    (r : outcome (option Z)) (s1 : state) :
  seed comunicazione = Some (cf_ente, name_ente, url) ->
  process_xml_link w fuel (Some url) output_filename
    (State (trace s) (files s) (log s ++ [(INFO, Processing url)]))
  = Some (r, s1) ->
  exists return_code,
    r = Return return_code
    /\ main_loop w fuel (Some year) output_filename status_filename i
         (comunicazione :: rest) s
       = main_loop w fuel (Some year) output_filename status_filename (S i) rest
           (append_rows status_filename
              [[CStr year; CStr cf_ente; CStr name_ente; CStr url;
                match return_code with Some z => CInt z | None => CNone end]]
              s1).
Proof.
  intros Hseed Hplx.
  destruct r as [code|e];
    [|exfalso; exact (no_raise_process_xml_link _ _ _ _ _ _ _ Hplx)].
  exists code. split; [reflexivity|].
  rewrite (main_loop_seed _ _ _ _ _ _ _ _ _ _ _ _ Hseed).
  rewrite bind_unfold. cbn [logging]. rewrite bind_unfold, Hplx.
  rewrite bind_unfold. cbn [ret]. rewrite bind_unfold, update_status_csv_rows.
  reflexivity.
Qed.

Lemma main_loop_goes_on_witness :
  exists return_code,
    Return (Some 1) = Return return_code
    /\ main_loop lots_and_index 1 (Some "2020") "out.csv" "status.csv" 0
         (findall [Child "comunicazione"] catalogue) start
       = main_loop lots_and_index 1 (Some "2020") "out.csv" "status.csv" 1
           [comunicazione_example "002" "http://lots"]
           (append_rows "status.csv"
              [[CStr "2020"; CStr "001"; CStr EmptyString;
                CStr "http://down.example/l190.xml";
                match return_code with Some z => CInt z | None => CNone end]]
              (State [Request (Some "http://down.example/l190.xml"); Sleep 1000;
                      Request (Some "http://down.example/l190.xml"); Sleep 1000;
                      Request (Some "http://down.example/l190.xml")]
                     ∅
                     [(INFO, Processing "http://down.example/l190.xml");
                      (ERROR, ErrorAccessing
                                (Some "http://down.example/l190.xml"))])).
Proof.
  apply (main_loop_goes_on lots_and_index 1 "2020" "out.csv" "status.csv" 0
           (comunicazione_example " 001 " "down.example/l190.xml")
           [comunicazione_example "002" "http://lots"]
           "001" EmptyString "http://down.example/l190.xml" start
           (Return (Some 1))).
  - reflexivity.
  - vm_compute. reflexivity.
Defined.
